(** * restuss: the retrying request executor and the paginated endpoints

    A shallow embedding of [client.go] (package [restuss]).  The client
    talks to the network, sleeps, logs and mutates the request it is
    given; the embedding threads an explicit [World] through every
    operation and records each effect, in program order, in a trace.

    The collaborators that live outside [client.go] (the HTTP transport
    behind [c.httpClient.Do], the backoff generator of
    [github.com/jpillora/backoff], the [AuthProvider], the JSON codec)
    are section variables: every theorem holds for all of them. *)

From Stdlib Require Import ZArith List String Ascii Bool Lia QArith DecimalString.
Import ListNotations.
Open Scope string_scope.
Open Scope Z_scope.

(** ** Values of the Go runtime *)

(** A [[]byte] or Go [string]: a sequence of 8-bit characters. *)
Definition bytes := string.

(** A Go [error], identified with the text of [err.Error()];
    [errors.New] builds one from its message. *)
Definition error := string.

Definition errors_New (msg : string) : error := msg.

(** A Go result pair [(value, err)]. *)
Inductive result (A : Type) : Type :=
| Ok (a : A)
| Err (e : error).
Arguments Ok {A} a.
Arguments Err {A} e.

(** [time.Duration] is an [int64] count of nanoseconds. *)
Definition Duration := Z.

Definition wrap64 (z : Z) : Z := (z + 2 ^ 63) mod 2 ^ 64 - 2 ^ 63.

Definition minInt64 : Z := - 2 ^ 63.
Definition maxInt64 : Z := 2 ^ 63 - 1.

Definition Millisecond : Duration := 1000000.
Definition Second : Duration := 1000000000.

(** [a * b] on [time.Duration]: the product wraps around at 64 bits. *)
Definition Duration_mul (a b : Duration) : Duration := wrap64 (a * b).

(** ** [strconv.Atoi] on a 64-bit platform

    An optional sign followed by at least one decimal digit; a value
    outside [int64] is a range error. *)

Definition is_digit (c : ascii) : bool :=
  let n := Z.of_N (N_of_ascii c) in (48 <=? n) && (n <=? 57).

Fixpoint digits_value (s : string) (acc : Z) : option Z :=
  match s with
  | EmptyString => Some acc
  | String c rest =>
      if is_digit c
      then digits_value rest (acc * 10 + (Z.of_N (N_of_ascii c) - 48))
      else None
  end.

Definition Atoi (s : string) : option Z :=
  match s with
  | EmptyString => None
  | String c rest =>
      let neg := Ascii.eqb c "-"%char in
      let signed := neg || Ascii.eqb c "+"%char in
      let ds := if signed then rest else s in
      match ds with
      | EmptyString => None
      | _ =>
          match digits_value ds 0 with
          | None => None
          | Some v =>
              let n := if neg then - v else v in
              if (minInt64 <=? n) && (n <=? maxInt64) then Some n else None
          end
      end
  end.

(** ** [net/http] headers

    [http.Header] is a [map[string][]string] whose keys are stored in
    canonical form; [Get] canonicalises the key it is given and returns
    the first value, or the empty string. *)

Definition Header := list (string * list string).

Definition is_lower (c : ascii) : bool :=
  let n := Z.of_N (N_of_ascii c) in (97 <=? n) && (n <=? 122).

Definition is_upper (c : ascii) : bool :=
  let n := Z.of_N (N_of_ascii c) in (65 <=? n) && (n <=? 90).

Definition shift_ascii (c : ascii) (d : Z) : ascii :=
  ascii_of_N (Z.to_N (Z.of_N (N_of_ascii c) + d)).

(** The bytes allowed in a header field name (RFC 7230 token). *)
Definition validHeaderFieldByte (c : ascii) : bool :=
  is_lower c || is_upper c || is_digit c ||
  existsb (Ascii.eqb c)
    ["!"; "#"; "$"; "%"; "&"; "'"; "*"; "+"; "-"; "."; "^"; "_"; "`"; "|"; "~"]%char.

Fixpoint all_valid (s : string) : bool :=
  match s with
  | EmptyString => true
  | String c rest => validHeaderFieldByte c && all_valid rest
  end.

Fixpoint canonical_from (upper : bool) (s : string) : string :=
  match s with
  | EmptyString => EmptyString
  | String c rest =>
      let c' := if upper && is_lower c then shift_ascii c (-32)
                else if negb upper && is_upper c then shift_ascii c 32
                else c in
      String c' (canonical_from (Ascii.eqb c' "-"%char) rest)
  end.

Definition CanonicalMIMEHeaderKey (s : string) : string :=
  if all_valid s then canonical_from true s else s.

Fixpoint Header_lookup (h : Header) (k : string) : list string :=
  match h with
  | [] => []
  | (k', vs) :: rest => if String.eqb k' k then vs else Header_lookup rest k
  end.

Definition Header_Get (h : Header) (key : string) : string :=
  match Header_lookup h (CanonicalMIMEHeaderKey key) with
  | [] => EmptyString
  | v :: _ => v
  end.

Fixpoint Header_remove (h : Header) (k : string) : Header :=
  match h with
  | [] => []
  | (k', vs) :: rest =>
      if String.eqb k' k then Header_remove rest k else (k', vs) :: Header_remove rest k
  end.

Definition Header_Set (h : Header) (key value : string) : Header :=
  let k := CanonicalMIMEHeaderKey key in (k, [value]) :: Header_remove h k.

(** ** Readers, contexts, requests and responses *)

(** An [io.ReadCloser]: the bytes not yet read, the error (if any) that
    a read hits once they are consumed, and the error (if any) that
    [Close] reports.  Reading consumes: a reader is a cursor, not a
    value. *)
Record Reader := mkReader {
  unread : bytes;
  read_err : option error;
  close_err : option error
}.

(** [ioutil.NopCloser(bytes.NewBuffer(b))]. *)
Definition NewBuffer (b : bytes) : Reader :=
  {| unread := b; read_err := None; close_err := None |}.

(** [ioutil.ReadAll]: everything up to the end of the stream or the
    first error, and the reader left empty. *)
Definition ReadAll (r : Reader) : bytes * option error * Reader :=
  (unread r, read_err r,
   {| unread := EmptyString; read_err := read_err r; close_err := close_err r |}).

(** A [context.Context], reduced to what the retry loop could observe:
    the instant (on the clock of the [World]) at which [Done] fires, if
    it ever does, and the error [Err] reports from then on. *)
Record Context := mkContext {
  done_at : option Z;
  ctx_error : error
}.

Definition Background : Context :=
  {| done_at := None; ctx_error := EmptyString |}.

Definition ctx_Done (ctx : Context) (t : Z) : bool :=
  match done_at ctx with
  | Some tc => tc <=? t
  | None => false
  end.

Record Request := mkRequest {
  Method : string;
  URL : string;
  ReqHeader : Header;
  Body : option Reader;
  Ctx : Context
}.

Definition set_Body (req : Request) (b : option Reader) : Request :=
  {| Method := Method req; URL := URL req; ReqHeader := ReqHeader req;
     Body := b; Ctx := Ctx req |}.

Definition set_Header (req : Request) (key value : string) : Request :=
  {| Method := Method req; URL := URL req;
     ReqHeader := Header_Set (ReqHeader req) key value;
     Body := Body req; Ctx := Ctx req |}.

Definition WithContext (req : Request) (ctx : Context) : Request :=
  {| Method := Method req; URL := URL req; ReqHeader := ReqHeader req;
     Body := Body req; Ctx := ctx |}.

(** The bytes a transport can still read from the request's body. *)
Definition presented_body (req : Request) : bytes :=
  match Body req with
  | Some r => unread r
  | None => EmptyString
  end.

(** What is left of the request once a transport has written it out:
    the body reader has been read to its end. *)
Definition drained (req : Request) : Request :=
  set_Body req
    (match Body req with
     | Some r => Some (snd (ReadAll r))
     | None => None
     end).

Record Response := mkResponse {
  StatusCode : Z;
  RespHeader : Header;
  RespBody : Reader
}.

(** The outcome of [c.httpClient.Do(req)]. *)
Inductive SendResult :=
| SendOk (res : Response)
| SendErr (e : error).

Definition StatusTooManyRequests : Z := 429.

(** ** The backoff generator's state ([backoff.Backoff]) *)

Record Backoff := mkBackoff {
  attempt : nat;
  Factor : Q;
  Jitter : bool;
  Min : Duration;
  Max : Duration
}.

(** The generator's state after one more [Duration()]. *)
Definition advance (b : Backoff) : Backoff :=
  {| attempt := S (attempt b); Factor := Factor b; Jitter := Jitter b;
     Min := Min b; Max := Max b |}.

(** ** Effects *)

Inductive LogLine :=
| LogRequestURL (url : string)
| LogRequestBody (b : bytes)
| LogReadError (e : error)
| LogCloseError (e : error)
| LogStatusCode (code : Z)
| LogResponseBody (b : bytes)
| LogRetryAfterParseError (value : string)
| LogRateLimit (wait : Duration)
| LogUnexpectedStatus (code : Z) (wait : Duration).

(** A response is named by the index of the send that produced it. *)
Inductive Event :=
| EvReadRequestBody (b : bytes)
| EvAddAuthHeaders
| EvDo (req : Request)
| EvReadResponseBody (id : nat)
| EvCloseResponseBody (id : nat)
| EvDecodeResponseBody (id : nat)
| EvBackoffDuration (d : Duration)
| EvSleep (d : Duration)
| EvLog (l : LogLine).

(** The world outside the client: how many sends the transport has
    served, how many durations the backoff generator has drawn, the
    time spent asleep so far, and the trace of effects. *)
Record World := mkWorld {
  sends : nat;
  draws : nat;
  now : Z;
  trace : list Event
}.

Definition World0 : World :=
  {| sends := 0; draws := 0; now := 0; trace := [] |}.

Definition emit (e : Event) (w : World) : World :=
  {| sends := sends w; draws := draws w; now := now w; trace := trace w ++ [e] |}.

Definition log_Printf (l : LogLine) (w : World) : World := emit (EvLog l) w.

(** [time.Sleep d] blocks for [d]; a zero or negative duration returns
    at once.  It takes no context. *)
Definition time_Sleep (d : Duration) (w : World) : World :=
  {| sends := sends w; draws := draws w; now := now w + Z.max 0 d;
     trace := trace w ++ [EvSleep d] |}.

(** ** The request executor *)

Section Executor.

(** [c.httpClient.Do]: the reply to the [n]-th send of the run, made
    at time [t] with the request as it is presented. *)
Variable Do : nat -> Z -> Request -> SendResult.

(** [b.ForAttempt(b.attempt)] of the backoff library, jitter included:
    the duration computed from the generator's state on the [k]-th
    draw of the run. *)
Variable ForAttempt : nat -> Backoff -> Duration.

(** [c.auth.AddAuthHeaders]: the provider mutates the request. *)
Variable AddAuthHeaders : Request -> Request.

(** [b.Duration()]: compute the wait for the current attempt count,
    then advance the count. *)
Definition Backoff_Duration (b : Backoff) (w : World) : Duration * Backoff * World :=
  let d := ForAttempt (draws w) b in
  (d,
   advance b,
   {| sends := sends w; draws := S (draws w); now := now w;
      trace := trace w ++ [EvBackoffDuration d] |}).

(** One call of [c.httpClient.Do(req)].  The transport is handed the
    request as it stands; to write it out, it reads [req.Body] to the
    end and closes it ([net/http]: the request body is closed by the
    transport, and a caller must not reuse it).  Here the body is a
    [bytes.Buffer] behind a [NopCloser]: closing does nothing, reading
    consumes, and nothing in [client.go] puts the bytes back. *)
Definition httpClient_Do (req : Request) (w : World) : SendResult * Request * World :=
  (Do (sends w) (now w) req,
   drained req,
   {| sends := S (sends w); draws := draws w; now := now w;
      trace := trace w ++ [EvDo req] |}).

(** Lines 507-527: the wait chosen after a response with status
    [>= 300], given the duration the backoff generator computed. *)
Definition wait_after (res : Response) (backoff_wait : Duration) (w : World)
  : Duration * World :=
  if StatusCode res =? StatusTooManyRequests then
    let retryAfter := Header_Get (RespHeader res) "retry-after" in
    let '(waitTime, w1) :=
      if String.eqb retryAfter EmptyString then (backoff_wait, w)
      else
        match Atoi retryAfter with
        | None => (backoff_wait, log_Printf (LogRetryAfterParseError retryAfter) w)
        | Some retryAfterInt => (Duration_mul retryAfterInt Second, w)
        end in
    (waitTime, log_Printf (LogRateLimit waitTime) w1)
  else
    (backoff_wait, log_Printf (LogUnexpectedStatus (StatusCode res) backoff_wait) w).

Definition log_if_error (mk : error -> LogLine) (e : option error) (w : World) : World :=
  match e with
  | Some msg => log_Printf (mk msg) w
  | None => w
  end.

(** [res.Body.Close()] with its error logged. *)
Definition close_body (id : nat) (res : Response) (w : World) : World :=
  log_if_error LogCloseError (close_err (RespBody res))
    (emit (EvCloseResponseBody id) w).

(** Lines 491-530: the branch taken for a status [>= 300]. *)
Definition failed_attempt (req : Request) (reqBodyBytes : bytes)
    (id : nat) (res : Response) (b : Backoff) (w : World)
  : Backoff * Response * World :=
  let w := log_Printf (LogRequestURL (URL req)) w in
  let w := log_Printf (LogRequestBody reqBodyBytes) w in
  let '(buf, rerr, body') := ReadAll (RespBody res) in
  let w := emit (EvReadResponseBody id) w in
  let w := log_if_error LogReadError rerr w in
  let w := close_body id res w in
  let w := log_Printf (LogStatusCode (StatusCode res)) w in
  let w := log_Printf (LogResponseBody buf) w in
  let '(waitTime, b', w) := Backoff_Duration b w in
  let '(waitTime, w) := wait_after res waitTime w in
  (b',
   {| StatusCode := StatusCode res; RespHeader := RespHeader res; RespBody := body' |},
   time_Sleep waitTime w).

(** How the loop of lines 480-535 is left. *)
Inductive LoopExit :=
| LoopReturn (e : error) (w : World)
    (* [return] from inside the loop *)
| LoopBreak (id : nat) (res : Response) (w : World)
    (* [success = true; break] *)
| LoopExhausted (res : option (nat * Response)) (w : World).
    (* [i < 10] failed; [success] is still [false] *)

(** The loop [for i := 0; i < 10; i++], by recursion on the number
    [n] of iterations that remain. *)
Fixpoint attempts (n : nat) (req : Request) (reqBodyBytes : bytes) (b : Backoff)
    (res : option (nat * Response)) (w : World) : LoopExit :=
  match n with
  | O => LoopExhausted res w
  | S n' =>
      let id := sends w in
      let '(r, req', w1) := httpClient_Do req w in
      match r with
      | SendErr e => LoopReturn (errors_New ("Failed call: " ++ e)) w1
      | SendOk rs =>
          if 300 <=? StatusCode rs then
            let '(b', rs', w2) := failed_attempt req' reqBodyBytes id rs b w1 in
            attempts n' req' reqBodyBytes b' (Some (id, rs')) w2
          else LoopBreak id rs w1
      end
  end.

(** The deferred closure of lines 537-544, run when the function
    returns. *)
Definition deferred_close (res : option (nat * Response)) (w : World) : World :=
  match res with
  | Some (id, rs) => close_body id rs w
  | None => w
  end.

Definition initial_backoff : Backoff :=
  {| attempt := 0; Factor := (3 # 2)%Q; Jitter := true;
     Min := 100 * Millisecond; Max := 60 * Second |}.

Definition retry_budget : nat := 10.

(** Lines 464-471: the request body, if there is one, is read into
    [reqBodyBytes]. *)
Definition buffer_request_body (req : Request) (w : World)
  : bytes * option error * World :=
  match Body req with
  | Some r =>
      let '(bs, e, _) := ReadAll r in (bs, e, emit (EvReadRequestBody bs) w)
  | None => (EmptyString, None, w)
  end.

(** Lines 537-559: what follows the loop.  The deferred closure is
    registered first and runs last. *)
Definition after_loop {T : Type} (data : option (Reader -> result T)) (x : LoopExit)
  : result (option T) * World :=
  match x with
  | LoopReturn e w => (Err e, w)
  | LoopExhausted res w =>
      (Err (errors_New "Retry limit exceeded"), deferred_close res w)
  | LoopBreak id res w =>
      match data with
      | Some decode =>
          let w := emit (EvDecodeResponseBody id) w in
          match decode (RespBody res) with
          | Err e =>
              (Err (errors_New ("Failed to read the response: " ++ e)),
               deferred_close (Some (id, res)) w)
          | Ok v => (Ok (Some v), deferred_close (Some (id, res)) w)
          end
      | None => (Ok None, deferred_close (Some (id, res)) w)
      end
  end.

(** [performCallAndReadResponse(req, data)].  The target [data] is
    either [nil] or a value the JSON decoder fills from the body.
    The seeding of the global random source (line 461) only feeds the
    jitter, which [ForAttempt] stands for. *)
Definition performCallAndReadResponse {T : Type} (req : Request)
    (data : option (Reader -> result T)) (w : World)
  : result (option T) * World :=
  let b := initial_backoff in
  let '(reqBodyBytes, rerr, w) := buffer_request_body req w in
  match rerr with
  | Some e => (Err (errors_New ("Failed to read request body: " ++ e)), w)
  | None =>
      let req := set_Body req (Some (NewBuffer reqBodyBytes)) in
      let req := AddAuthHeaders req in
      let w := emit EvAddAuthHeaders w in
      after_loop data (attempts retry_budget req reqBodyBytes b None w)
  end.

(** ** The paginated endpoints *)

(** The records of the API are opaque to the client: it only moves
    them around. *)
Variables Asset Finding : Type.

Record Pagination := mkPagination {
  Next : string;
  Limit : Z;
  Total : Z
}.

Record FindingsPage := mkFindingsPage {
  Findings : list Finding;
  Pagination_ : Pagination
}.

(** [json.Marshal] of the two search payloads, as a function of the
    asset name, and the JSON decoders of the two envelopes. *)
Variable marshal_asset_search : string -> result bytes.
Variable marshal_findings_search : string -> result bytes.
Variable decode_assets : Reader -> result (list Asset).
Variable decode_findings : Reader -> result FindingsPage.

(** [http.NewRequest] fails when the URL does not parse. *)
Variable url_parse_error : string -> option error.

(** The client's base URL, [c.url]. *)
Variable c_url : string.

Definition MethodPost : string := "POST".

Definition http_NewRequest (method url : string) (body : option Reader) : result Request :=
  match url_parse_error url with
  | Some e => Err e
  | None =>
      Ok {| Method := method; URL := url; ReqHeader := []; Body := body;
            Ctx := Background |}
  end.

(** [fmt.Sprintf("%d", n)] for a length. *)
Definition format_int (n : nat) : string := NilEmpty.string_of_uint (Nat.to_uint n).

(** [GetAssetByName(ctx, name)]. *)
Definition GetAssetByName (ctx : Context) (name : string) (w : World)
  : result Asset * World :=
  let path := "/api/v3/assets/search" in
  match marshal_asset_search name with
  | Err e => (Err (errors_New ("Unable to marshall request body" ++ e)), w)
  | Ok jsonBody =>
      match http_NewRequest MethodPost (c_url ++ path) (Some (NewBuffer jsonBody)) with
      | Err e => (Err (errors_New ("Unable to create request object: " ++ e)), w)
      | Ok req =>
          let req := set_Header req "Content-Type" "application/json" in
          let req := set_Header req "Accept" "application/json" in
          let req := WithContext req ctx in
          match performCallAndReadResponse req (Some decode_assets) w with
          | (Err e, w) => (Err e, w)
          | (Ok result, w) =>
              let assets := match result with Some l => l | None => [] end in
              if Nat.eqb (List.length assets) 0 then
                (Err ("No assets matching name: " ++ name), w)
              else if Nat.ltb 1 (List.length assets) then
                (Err ("More than one asset matching name: " ++ name ++ " ("
                      ++ format_int (List.length assets) ++ ")"), w)
              else
                match assets with
                | a :: _ => (Ok a, w)
                | [] => (Err "index out of range [0] with length 0", w)
                end
          end
      end
  end.

Definition dquote : string := String (ascii_of_nat 34) EmptyString.

(** [fmt.Sprintf] of the format [{"next":"%s"}] and [next]: the cursor
    goes in as it is, with no escaping. *)
Definition json_next (next : string) : bytes :=
  "{" ++ dquote ++ "next" ++ dquote ++ ":" ++ dquote ++ next ++ dquote ++ "}".

(** The loop of lines 423-445.  It has no bound of its own: [fuel]
    counts the iterations allowed, and [None] means they ran out. *)
Fixpoint next_pages (fuel : nat) (ctx : Context) (next : string)
    (findings : list Finding) (w : World)
  : option (result (list Finding) * World) :=
  if String.eqb next EmptyString then Some (Ok findings, w)
  else
    match fuel with
    | O => None
    | S fuel' =>
        let jsonNext := json_next next in
        match http_NewRequest MethodPost
                (c_url ++ "/api/v3/findings/vulnerabilities/host/search")
                (Some (NewBuffer jsonNext)) with
        | Err e => Some (Err (errors_New ("Unable to create request object: " ++ e)), w)
        | Ok req =>
            let req := set_Header req "Content-Type" "application/json" in
            let req := set_Header req "Accept" "application/json" in
            let req := WithContext req ctx in
            match performCallAndReadResponse req (Some decode_findings) w with
            | (Err e, w) => Some (Err e, w)
            | (Ok result, w) =>
                let page := match result with
                            | Some p => p
                            | None => mkFindingsPage [] (mkPagination EmptyString 0 0)
                            end in
                next_pages fuel' ctx (Next (Pagination_ page))
                  (findings ++ Findings page) w
            end
        end
    end.

(** [GetFindingsByAssetName(ctx, name)]. *)
Definition GetFindingsByAssetName (fuel : nat) (ctx : Context) (name : string) (w : World)
  : option (result (list Finding) * World) :=
  let findings : list Finding := [] in
  let path := "/api/v3/findings/vulnerabilities/host/search" in
  match marshal_findings_search name with
  | Err e => Some (Err (errors_New ("Unable to marshall request body" ++ e)), w)
  | Ok jsonBody =>
      match http_NewRequest MethodPost (c_url ++ path) (Some (NewBuffer jsonBody)) with
      | Err e => Some (Err (errors_New ("Unable to create request object: " ++ e)), w)
      | Ok req =>
          let req := set_Header req "Content-Type" "application/json" in
          let req := set_Header req "Accept" "application/json" in
          let req := WithContext req ctx in
          match performCallAndReadResponse req (Some decode_findings) w with
          | (Err e, w) => Some (Err e, w)
          | (Ok result, w) =>
              let page := match result with
                          | Some p => p
                          | None => mkFindingsPage [] (mkPagination EmptyString 0 0)
                          end in
              next_pages fuel ctx (Next (Pagination_ page))
                (findings ++ Findings page) w
          end
      end
  end.

End Executor.

Arguments mkFindingsPage {Finding} _ _.
Arguments Findings {Finding} _.
Arguments Pagination_ {Finding} _.

(** ** The records of the scan and policy endpoints

    [ScanDetail] and [Policy] are the two records an endpoint writes
    into; each record stands in a module of its name, so that the
    fields keep the names they have in Go.  An [int64] is a [Z]. *)

Module Info.
Record t := mk { Status : string }.
End Info.

Module Host.
Record t := mk { ID : Z; Hostname : string }.
End Host.

Module Vulnerability.
Record t := mk {
  VulnerabilityIndex : Z;
  Severity : Z;
  PluginName : string;
  Count : Z;
  PluginID : Z;
  PluginFamily : string
}.
End Vulnerability.

Module ScanDetail.
Record t := mk {
  ID : Z;
  Info : Info.t;
  Hosts : list Host.t;
  Vulnerabilities : list Vulnerability.t
}.
(** [&ScanDetail{}]. *)
Definition zero : t :=
  {| ID := 0; Info := Info.mk EmptyString; Hosts := []; Vulnerabilities := [] |}.
(** [scanDetail.ID = id]. *)
Definition set_ID (d : t) (id : Z) : t :=
  {| ID := id; Info := Info d; Hosts := Hosts d; Vulnerabilities := Vulnerabilities d |}.
End ScanDetail.

Module PolicySettings.
Record t := mk { Name : string }.
End PolicySettings.

Module Policy.
Record t := mk { ID : Z; UUID : string; Settings : PolicySettings.t }.
(** [&Policy{}]. *)
Definition zero : t :=
  {| ID := 0; UUID := EmptyString; Settings := PolicySettings.mk EmptyString |}.
(** [p.ID = id]. *)
Definition set_ID (p : t) (id : Z) : t :=
  {| ID := id; UUID := UUID p; Settings := Settings p |}.
End Policy.

(** What a call comes to: it returns its pair of value and error, or
    it panics. *)
Inductive returned (A : Type) : Type :=
| Returns (r : result A)
| Panics (msg : string).
Arguments Returns {A} r.
Arguments Panics {A} msg.

(** [strconv.FormatInt(i, 10)], which is also what [fmt.Sprintf] writes
    for [%d]: the decimal digits, after a minus sign when [i] is
    negative. *)
Definition FormatInt (i : Z) : string := NilEmpty.string_of_int (Z.to_int i).

Definition set_URL (req : Request) (url : string) : Request :=
  {| Method := Method req; URL := url; ReqHeader := ReqHeader req;
     Body := Body req; Ctx := Ctx req |}.

(** ** The scan, plugin and policy endpoints *)

Section ScanEndpoints.

Variable Do : nat -> Z -> Request -> SendResult.
Variable ForAttempt : nat -> Backoff -> Duration.
Variable AddAuthHeaders : Request -> Request.
Variable url_parse_error : string -> option error.
Variable c_url : string.

(** The records these endpoints only move around, with the value a
    variable of each has before anything is decoded into it. *)
Variables ScanTemplate PersistedScan Scan Plugin PluginOutputResponse : Type.
Variable zero_PersistedScan : PersistedScan.
Variable zero_Plugin : Plugin.
Variable zero_PluginOutputResponse : PluginOutputResponse.

(** [json.Marshal] of a [Scan], and the JSON decoders of the targets.
    A slice of pointers decodes to a list whose elements may be nil.
    [GetScanByIDContext] hands the decoder the address of the pointer
    [scanDetail] itself, so the decoder yields the pointer, which it
    may leave nil (a body that is the JSON [null] does). *)
Variable marshal_scan : Scan -> result bytes.
Variable decode_templates : Reader -> result (list (option ScanTemplate)).
Variable decode_created : Reader -> result PersistedScan.
Variable decode_scans : Reader -> result (list (option PersistedScan)).
Variable decode_scan_detail : Reader -> result (option ScanDetail.t).
Variable decode_plugin : Reader -> result Plugin.
Variable decode_plugin_output : Reader -> result PluginOutputResponse.
Variable decode_policy : Reader -> result Policy.t.

(** [req.URL.Query()], [q.Add(key, value)] and
    [req.URL.RawQuery = q.Encode()] of [net/url], on the URL as a
    string. *)
Variable add_query : string -> string -> string -> string.

Definition MethodGet : string := "GET".
Definition MethodDelete : string := "DELETE".

(** A Go [error] result: [nil] is [None]. *)
Definition error_of {A : Type} (r : result A) : option error :=
  match r with
  | Ok _ => None
  | Err e => Some e
  end.

(** [GetScanTemplatesContext(ctx)]. *)
Definition GetScanTemplatesContext (ctx : Context) (w : World)
  : result (list (option ScanTemplate)) * World :=
  match http_NewRequest url_parse_error MethodGet (c_url ++ "/editor/scan/templates") None with
  | Err e => (Err (errors_New ("Unable to create request object: " ++ e)), w)
  | Ok req =>
      let req := WithContext req ctx in
      match performCallAndReadResponse Do ForAttempt AddAuthHeaders req
              (Some decode_templates) w with
      | (Err e, w) => (Err (errors_New ("Call failed: " ++ e)), w)
      | (Ok data, w) => (Ok (match data with Some l => l | None => [] end), w)
      end
  end.

(** [GetScanTemplates()]. *)
Definition GetScanTemplates (w : World) : result (list (option ScanTemplate)) * World :=
  GetScanTemplatesContext Background w.

(** [LaunchScanContext(ctx, scanID)]. *)
Definition LaunchScanContext (ctx : Context) (scanID : Z) (w : World)
  : option error * World :=
  let path := "/scans/" ++ FormatInt scanID ++ "/launch" in
  match http_NewRequest url_parse_error MethodPost (c_url ++ path) None with
  | Err e => (Some (errors_New ("Unable to create request object: " ++ e)), w)
  | Ok req =>
      let req := WithContext req ctx in
      let '(r, w) := performCallAndReadResponse Do ForAttempt AddAuthHeaders (T := unit)
                       req None w in
      (error_of r, w)
  end.

(** [LaunchScan(scanID)]. *)
Definition LaunchScan (scanID : Z) (w : World) : option error * World :=
  LaunchScanContext Background scanID w.

(** [StopScanContext(ctx, scanID)]. *)
Definition StopScanContext (ctx : Context) (scanID : Z) (w : World)
  : option error * World :=
  let path := "/scans/" ++ FormatInt scanID ++ "/stop" in
  match http_NewRequest url_parse_error MethodPost (c_url ++ path) None with
  | Err e => (Some (errors_New ("Unable to create request object: " ++ e)), w)
  | Ok req =>
      let req := WithContext req ctx in
      let '(r, w) := performCallAndReadResponse Do ForAttempt AddAuthHeaders (T := unit)
                       req None w in
      (error_of r, w)
  end.

(** [StopScan(scanID)]. *)
Definition StopScan (scanID : Z) (w : World) : option error * World :=
  StopScanContext Background scanID w.

(** [DeleteScanContext(ctx, scanID)]. *)
Definition DeleteScanContext (ctx : Context) (scanID : Z) (w : World)
  : option error * World :=
  let path := "/scans/" ++ FormatInt scanID in
  match http_NewRequest url_parse_error MethodDelete (c_url ++ path) None with
  | Err e => (Some (errors_New ("Unable to create request object: " ++ e)), w)
  | Ok req =>
      let req := WithContext req ctx in
      let '(r, w) := performCallAndReadResponse Do ForAttempt AddAuthHeaders (T := unit)
                       req None w in
      (error_of r, w)
  end.

(** [DeleteScan(scanID)]. *)
Definition DeleteScan (scanID : Z) (w : World) : option error * World :=
  DeleteScanContext Background scanID w.

(** [CreateScanContext(ctx, scan)]. *)
Definition CreateScanContext (ctx : Context) (scan : Scan) (w : World)
  : result PersistedScan * World :=
  match marshal_scan scan with
  | Err e => (Err (errors_New ("Unable to marshall request body" ++ e)), w)
  | Ok jsonBody =>
      match http_NewRequest url_parse_error MethodPost (c_url ++ "/scans")
              (Some (NewBuffer jsonBody)) with
      | Err e => (Err (errors_New ("Unable to create request object: " ++ e)), w)
      | Ok req =>
          let req := set_Header req "Content-Type" "application/json" in
          let req := WithContext req ctx in
          match performCallAndReadResponse Do ForAttempt AddAuthHeaders req
                  (Some decode_created) w with
          | (Err e, w) => (Err e, w)
          | (Ok result, w) =>
              (Ok (match result with Some s => s | None => zero_PersistedScan end), w)
          end
      end
  end.

(** [CreateScan(scan)]. *)
Definition CreateScan (scan : Scan) (w : World) : result PersistedScan * World :=
  CreateScanContext Background scan w.

(** [GetScansContext(ctx, lastModificationDate)]. *)
Definition GetScansContext (ctx : Context) (lastModificationDate : Z) (w : World)
  : result (list (option PersistedScan)) * World :=
  match http_NewRequest url_parse_error MethodGet (c_url ++ "/scans") None with
  | Err e => (Err (errors_New ("Unable to create request object: " ++ e)), w)
  | Ok req =>
      let req :=
        if 0 <? lastModificationDate then
          set_URL req
            (add_query (URL req) "last_modification_date"
               (FormatInt lastModificationDate))
        else req in
      let req := WithContext req ctx in
      match performCallAndReadResponse Do ForAttempt AddAuthHeaders req
              (Some decode_scans) w with
      | (Err e, w) => (Err e, w)
      | (Ok data, w) => (Ok (match data with Some l => l | None => [] end), w)
      end
  end.

(** [GetScans(lastModificationDate)]. *)
Definition GetScans (lastModificationDate : Z) (w : World)
  : result (list (option PersistedScan)) * World :=
  GetScansContext Background lastModificationDate w.

(** [GetScanByIDContext(ctx, ID)].  The assignment [scanDetail.ID = ID]
    goes through the pointer the decoder was given the address of: on a
    nil pointer it panics. *)
Definition GetScanByIDContext (ctx : Context) (ID : Z) (w : World)
  : returned ScanDetail.t * World :=
  let path := "/scans/" ++ FormatInt ID in
  match http_NewRequest url_parse_error MethodGet (c_url ++ path) None with
  | Err e => (Returns (Err (errors_New ("Unable to create request object: " ++ e))), w)
  | Ok req =>
      let req := WithContext req ctx in
      match performCallAndReadResponse Do ForAttempt AddAuthHeaders req
              (Some decode_scan_detail) w with
      | (Err e, w) => (Returns (Err e), w)
      | (Ok data, w) =>
          let scanDetail := match data with
                            | Some p => p
                            | None => Some ScanDetail.zero
                            end in
          match scanDetail with
          | Some d => (Returns (Ok (ScanDetail.set_ID d ID)), w)
          | None => (Panics "invalid memory address or nil pointer dereference", w)
          end
      end
  end.

(** [GetScanByID(ID)]. *)
Definition GetScanByID (ID : Z) (w : World) : returned ScanDetail.t * World :=
  GetScanByIDContext Background ID w.

(** [GetPluginByIDContext(ctx, ID)]. *)
Definition GetPluginByIDContext (ctx : Context) (ID : Z) (w : World)
  : result Plugin * World :=
  let path := "/plugins/plugin/" ++ FormatInt ID in
  match http_NewRequest url_parse_error MethodGet (c_url ++ path) None with
  | Err e => (Err (errors_New ("Unable to create request object: " ++ e)), w)
  | Ok req =>
      let req := WithContext req ctx in
      match performCallAndReadResponse Do ForAttempt AddAuthHeaders req
              (Some decode_plugin) w with
      | (Err e, w) => (Err e, w)
      | (Ok data, w) => (Ok (match data with Some p => p | None => zero_Plugin end), w)
      end
  end.

(** [GetPluginByID(ID)]. *)
Definition GetPluginByID (ID : Z) (w : World) : result Plugin * World :=
  GetPluginByIDContext Background ID w.

(** [GetPluginOutputContext(ctx, scanID, hostID, pluginID)]. *)
Definition GetPluginOutputContext (ctx : Context) (scanID hostID pluginID : Z) (w : World)
  : result PluginOutputResponse * World :=
  let path := "/scans/" ++ FormatInt scanID ++ "/hosts/" ++ FormatInt hostID
              ++ "/plugins/" ++ FormatInt pluginID in
  match http_NewRequest url_parse_error MethodGet (c_url ++ path) None with
  | Err e => (Err (errors_New ("Unable to create request object: " ++ e)), w)
  | Ok req =>
      let req := WithContext req ctx in
      match performCallAndReadResponse Do ForAttempt AddAuthHeaders req
              (Some decode_plugin_output) w with
      | (Err e, w) => (Err e, w)
      | (Ok data, w) =>
          (Ok (match data with Some o => o | None => zero_PluginOutputResponse end), w)
      end
  end.

(** [GetPluginOutput(scanID, hostID, pluginID)]. *)
Definition GetPluginOutput (scanID hostID pluginID : Z) (w : World)
  : result PluginOutputResponse * World :=
  GetPluginOutputContext Background scanID hostID pluginID w.

(** [GetPolicyByID(ID)]: written out on its own in the source, with no
    context set on the request. *)
Definition GetPolicyByID (ID : Z) (w : World) : result Policy.t * World :=
  let path := "/policies/" ++ FormatInt ID in
  match http_NewRequest url_parse_error MethodGet (c_url ++ path) None with
  | Err e => (Err (errors_New ("Unable to create request object: " ++ e)), w)
  | Ok req =>
      match performCallAndReadResponse Do ForAttempt AddAuthHeaders req
              (Some decode_policy) w with
      | (Err e, w) => (Err e, w)
      | (Ok data, w) =>
          let p := match data with Some p => p | None => Policy.zero end in
          (Ok (Policy.set_ID p ID), w)
      end
  end.

(** [GetPolicyByIDContext(ctx, ID)]. *)
Definition GetPolicyByIDContext (ctx : Context) (ID : Z) (w : World)
  : result Policy.t * World :=
  let path := "/policies/" ++ FormatInt ID in
  match http_NewRequest url_parse_error MethodGet (c_url ++ path) None with
  | Err e => (Err (errors_New ("Unable to create request object: " ++ e)), w)
  | Ok req =>
      let req := WithContext req ctx in
      match performCallAndReadResponse Do ForAttempt AddAuthHeaders req
              (Some decode_policy) w with
      | (Err e, w) => (Err e, w)
      | (Ok data, w) =>
          let p := match data with Some p => p | None => Policy.zero end in
          (Ok (Policy.set_ID p ID), w)
      end
  end.

End ScanEndpoints.

(** ** Observations on a trace *)

(** The requests handed to the transport, in order. *)
Definition requests_sent (tr : list Event) : list Request :=
  flat_map (fun e => match e with EvDo r => [r] | _ => [] end) tr.

(** The request body bytes the transport could read on each send. *)
Definition bodies_presented (tr : list Event) : list bytes :=
  map presented_body (requests_sent tr).

(** The arguments of [time.Sleep], in order. *)
Definition sleeps_of (tr : list Event) : list Duration :=
  flat_map (fun e => match e with EvSleep d => [d] | _ => [] end) tr.

(** The responses whose body was closed, one entry per [Close]. *)
Definition closes_of (tr : list Event) : list nat :=
  flat_map (fun e => match e with EvCloseResponseBody id => [id] | _ => [] end) tr.

Definition times_closed (id : nat) (tr : list Event) : nat :=
  count_occ Nat.eq_dec (closes_of tr) id.

(** The calls of [AddAuthHeaders]. *)
Definition auth_calls (tr : list Event) : list unit :=
  flat_map (fun e => match e with EvAddAuthHeaders => [tt] | _ => [] end) tr.

(** Time spent in a list of sleeps. *)
Definition slept (ds : list Duration) : Z :=
  fold_right (fun d acc => Z.max 0 d + acc) 0 ds.

(** The three ways the loop treats a status code, in the order the
    code tests them (lines 491 and 511). *)
Inductive Outcome := Success | RateLimited | RetryableFailure.

Definition classify (status : Z) : Outcome :=
  if 300 <=? status then
    if status =? StatusTooManyRequests then RateLimited else RetryableFailure
  else Success.

(** The treatment each retried attempt received, read off the log line
    that announces the retry. *)
Definition retries_logged (tr : list Event) : list Outcome :=
  flat_map (fun e => match e with
                     | EvLog (LogRateLimit _) => [RateLimited]
                     | EvLog (LogUnexpectedStatus _ _) => [RetryableFailure]
                     | _ => []
                     end) tr.

(** Every send is preceded, since the previous send, by a call of
    [AddAuthHeaders]; [fresh] tells whether one has been seen. *)
Fixpoint auth_before_each_send (fresh : bool) (tr : list Event) : bool :=
  match tr with
  | [] => true
  | EvAddAuthHeaders :: rest => auth_before_each_send true rest
  | EvDo _ :: rest => fresh && auth_before_each_send false rest
  | _ :: rest => auth_before_each_send fresh rest
  end.

(** All the bodies presented are the buffered bytes [b]. *)
Definition all_present (b : bytes) (tr : list Event) : bool :=
  forallb (String.eqb b) (bodies_presented tr).

(** The bodies of the requests handed to the executor, as it read
    them. *)
Definition bodies_read (tr : list Event) : list bytes :=
  flat_map (fun e => match e with EvReadRequestBody b => [b] | _ => [] end) tr.

(** The treatment of a response that is retried. *)
Definition retry_class (rs : Response) : Outcome :=
  if StatusCode rs =? StatusTooManyRequests then RateLimited else RetryableFailure.

(** The effects that precede the loop when the body can be read. *)
Definition prelude (req : Request) : list Event :=
  match Body req with
  | Some r => [EvReadRequestBody (unread r); EvAddAuthHeaders]
  | None => [EvAddAuthHeaders]
  end.

(** The request the loop sends: its body is the buffered copy, and the
    auth provider has been over it. *)
Definition prepared (AddAuthHeaders : Request -> Request) (req : Request) : Request :=
  AddAuthHeaders (set_Body req (Some (NewBuffer (presented_body req)))).

(** The request body, if there is one, can be read without error. *)
Definition body_readable (req : Request) : Prop :=
  match Body req with
  | Some r => read_err r = None
  | None => True
  end.

(** The wait line 507-521 settles on, as a function of the response
    and of the duration the backoff generator computed. *)
Definition wait_of (res : Response) (backoff_wait : Duration) : Duration :=
  fst (wait_after res backoff_wait World0).

(** The transport answers the sends numbered [s0], [s0+1], ... with the
    outcomes [outs], whenever and with whatever request it is called. *)
Definition answers (Do : nat -> Z -> Request -> SendResult) (s0 : nat)
    (outs : list SendResult) : Prop :=
  forall i o, nth_error outs i = Some o ->
              forall t req, Do (s0 + i)%nat t req = o.

(** A transport that honours the request's context, as [net/http]
    does: once the context is done the exchange fails with the
    context's error; until then the underlying transport answers. *)
Definition with_context (Do : nat -> Z -> Request -> SendResult)
    : nat -> Z -> Request -> SendResult :=
  fun n t req =>
    if ctx_Done (Ctx req) t then SendErr (ctx_error (Ctx req)) else Do n t req.

Section Schedule.

Variable Do : nat -> Z -> Request -> SendResult.
Variable ForAttempt : nat -> Backoff -> Duration.

(** The waits that follow the failed responses [fails], the first of
    them computed on draw [k] from the generator state [b]. *)
Fixpoint waits (fails : list Response) (k : nat) (b : Backoff) : list Duration :=
  match fails with
  | [] => []
  | rs :: rest => wait_of rs (ForAttempt k b) :: waits rest (S k) (advance b)
  end.

(** The sends numbered from [s], made under the context [ctx] at the
    times the loop reaches them starting at [t], are answered by the
    responses [fails], each with a status of 300 or more. *)
Fixpoint answered (ctx : Context) (fails : list Response) (s k : nat) (t : Z)
    (b : Backoff) : Prop :=
  match fails with
  | [] => True
  | rs :: rest =>
      (forall req, Ctx req = ctx -> Do s t req = SendOk rs) /\ 300 <= StatusCode rs /\
      answered ctx rest (S s) (S k)
        (t + Z.max 0 (wait_of rs (ForAttempt k b))) (advance b)
  end.

End Schedule.

Definition exit_world (x : LoopExit) : World :=
  match x with
  | LoopReturn _ w => w
  | LoopBreak _ _ w => w
  | LoopExhausted _ w => w
  end.

(** The events a run added to the trace it started from. *)
Definition added (w0 w : World) : list Event :=
  skipn (List.length (trace w0)) (trace w).

(** The call gives up as soon as its context is done: a sleep during
    which the context fires is cut short, nothing is sent after it, and
    the call ends in an error that is not the one of an exhausted retry
    budget. *)
Definition aborts_on_cancel {A : Type} (tc : Z) (w0 : World) (out : result A * World)
    : Prop :=
  forall pre d post,
    added w0 (snd out) = (pre ++ EvSleep d :: post)%list ->
    now w0 + slept (sleeps_of pre) <= tc < now w0 + slept (sleeps_of pre) + d ->
    now (snd out) < now w0 + slept (sleeps_of pre) + d
    /\ requests_sent post = []
    /\ exists e, fst out = Err e /\ e <> errors_New "Retry limit exceeded".

(** The cursor [next] and the pages still to come form a chain that
    ends: every page but the last hands over a cursor that is not
    empty, the last an empty one. *)
Fixpoint chain {Finding : Type} (next : string) (pages : list (FindingsPage Finding))
    : Prop :=
  match pages with
  | [] => next = EmptyString
  | p :: rest => next <> EmptyString /\ chain (Next (Pagination_ p)) rest
  end.

(** The cursors sent to fetch those pages. *)
Fixpoint cursors_used {Finding : Type} (next : string) (pages : list (FindingsPage Finding))
    : list string :=
  match pages with
  | [] => []
  | p :: rest => next :: cursors_used (Next (Pagination_ p)) rest
  end.

(** A response the executor takes as a success and whose body decodes
    into the page [p]. *)
Definition serves {Finding : Type} (decode_findings : Reader -> result (FindingsPage Finding))
    (rs : Response) (p : FindingsPage Finding) : Prop :=
  StatusCode rs < 300 /\ decode_findings (RespBody rs) = Ok p.

(** The requests a loop that sends [k] times hands to the transport:
    the request as prepared, then what the first send left of it. *)
Definition request_sequence (req : Request) (k : nat) : list Request :=
  match k with
  | O => []
  | S k' => (req :: repeat (drained req) k')%list
  end.

(** A request of method [m] for the URL [u] under the context [ctx]. *)
Definition targets (m u : string) (ctx : Context) (q : Request) : Prop :=
  Method q = m /\ URL q = u /\ Ctx q = ctx.

(** A request that announces and accepts JSON. *)
Definition json_headers (q : Request) : Prop :=
  Header_Get (ReqHeader q) "Content-Type" = "application/json"
  /\ Header_Get (ReqHeader q) "Accept" = "application/json".

(** An auth provider that leaves the method, the URL and the context
    of a request alone. *)
Definition keeps_target (AddAuthHeaders : Request -> Request) : Prop :=
  forall q, Method (AddAuthHeaders q) = Method q
            /\ URL (AddAuthHeaders q) = URL q
            /\ Ctx (AddAuthHeaders q) = Ctx q.

(** An auth provider that leaves the header [key] alone. *)
Definition keeps_header (AddAuthHeaders : Request -> Request) (key : string) : Prop :=
  forall q, Header_Get (ReqHeader (AddAuthHeaders q)) key = Header_Get (ReqHeader q) key.

(** ** Concrete transports, providers and requests *)

Module Fixtures.

(** A transport that plays back a list of outcomes, and reports a
    closed connection once the list is over. *)
Definition scripted (outs : list SendResult) : nat -> Z -> Request -> SendResult :=
  fun n _ _ => nth n outs (SendErr "EOF").

(** A generator whose jitter always lands on the minimum. *)
Definition at_minimum : nat -> Backoff -> Duration := fun _ b => Min b.

Definition api_keys (req : Request) : Request :=
  set_Header req "X-ApiKeys" "accessKey=a; secretKey=s".

Definition post (body : bytes) (ctx : Context) : Request :=
  {| Method := "POST"; URL := "https://cloud.tenable.com/scans";
     ReqHeader := [("Content-Type", ["application/json"])];
     Body := Some (NewBuffer body); Ctx := ctx |}.

(** A request with no body, as [GetScansContext] builds it. *)
Definition get_scans (ctx : Context) : Request :=
  {| Method := "GET"; URL := "https://cloud.tenable.com/scans";
     ReqHeader := []; Body := None; Ctx := ctx |}.

Definition reply (status : Z) (h : Header) (body : bytes) : Response :=
  {| StatusCode := status; RespHeader := h; RespBody := NewBuffer body |}.

(** Decoding into an integer target: a JSON number, or a syntax
    error. *)
Definition decode_int (r : Reader) : result Z :=
  match Atoi (unread r) with
  | Some n => Ok n
  | None => Err "invalid character looking for beginning of value"
  end.

Definition ten_500 : list Response := repeat (reply 500 [] "try again later") 10.

Definition canceled_at (tc : Z) : Context :=
  {| done_at := Some tc; ctx_error := "context canceled" |}.

(** Two pages of findings, named by strings, and one asset list. *)
Definition page1 : FindingsPage string := mkFindingsPage ["A"; "B"] (mkPagination "c1" 2 3).
Definition page2 : FindingsPage string := mkFindingsPage ["C"] (mkPagination EmptyString 2 3).

Definition decode_pages (r : Reader) : result (FindingsPage string) :=
  if String.eqb (unread r) "page1" then Ok page1
  else if String.eqb (unread r) "page2" then Ok page2
  else Err "unexpected end of JSON input".

Definition decode_names (r : Reader) : result (list string) :=
  if String.eqb (unread r) "one" then Ok ["web-1"]
  else if String.eqb (unread r) "two" then Ok ["web-1"; "web-1"]
  else if String.eqb (unread r) "none" then Ok []
  else Err "unexpected end of JSON input".

Definition marshal_query (name : string) : result bytes := Ok ("query:" ++ name).

Definition any_url (u : string) : option error := None.

Definition base_url : string := "https://cloud.tenable.com".

Definition status_500 : Response := reply 500 [] "try again later".

(** A failed attempt followed by a success. *)
Definition Do_500_then_200 : nat -> Z -> Request -> SendResult :=
  scripted [SendOk status_500; SendOk (reply 200 [] "42")].

Definition run_500_then_200 : result (option Z) * World :=
  performCallAndReadResponse Do_500_then_200 at_minimum api_keys
    (get_scans Background) (Some decode_int) World0.

(** The same answers to a request that carries a body. *)
Definition run_post_500_then_200 : result (option Z) * World :=
  performCallAndReadResponse Do_500_then_200 at_minimum api_keys
    (post "ab" Background) (Some decode_int) World0.

(** A success whose body is not what the target expects. *)
Definition html_page : Response := reply 200 [] "<html>".

Definition run_html : result (option Z) * World :=
  performCallAndReadResponse (scripted [SendOk html_page]) at_minimum api_keys
    (get_scans Background) (Some decode_int) World0.

(** Ten failures in a row. *)
Definition run_ten_500 : result (option Z) * World :=
  performCallAndReadResponse (scripted (map SendOk ten_500)) at_minimum api_keys
    (get_scans Background) (Some decode_int) World0.

(** A failure, then a refused connection. *)
Definition run_refused : result (option Z) * World :=
  performCallAndReadResponse
    (scripted [SendOk status_500; SendErr "connection refused"]) at_minimum api_keys
    (get_scans Background) (Some decode_int) World0.

(** Rate limited, with the wait the server asks for in seconds. *)
Definition limited (seconds : string) : Response :=
  reply 429 [("Retry-After", [seconds])] EmptyString.

Definition run_limited (seconds : string) : result (option Z) * World :=
  performCallAndReadResponse
    (scripted [SendOk (limited seconds); SendOk (reply 200 [] "42")]) at_minimum
    api_keys (get_scans Background) (Some decode_int) World0.

(** The caller cancels 50ms into the call, while it sleeps the 100ms
    that follow its first failed attempt. *)
Definition run_canceled : result (option Z) * World :=
  performCallAndReadResponse (with_context (scripted (map SendOk ten_500)))
    at_minimum api_keys (get_scans (canceled_at (50 * Millisecond)))
    (Some decode_int) World0.

Definition Do_two_pages : nat -> Z -> Request -> SendResult :=
  scripted [SendOk (reply 200 [] "page1"); SendOk (reply 200 [] "page2")].

Definition run_two_pages : option (result (list string) * World) :=
  GetFindingsByAssetName Do_two_pages at_minimum api_keys string marshal_query
    decode_pages any_url base_url 1 Background "web-1" World0.

Definition run_one_asset : result string * World :=
  GetAssetByName (scripted [SendOk (reply 200 [] "one")]) at_minimum api_keys string
    marshal_query decode_names any_url base_url Background "web-1" World0.

(** The asset search answered with no asset, with two and with twelve. *)
Definition decode_dozen (r : Reader) : result (list string) := Ok (repeat "web-1" 12).

Definition run_no_asset : result string * World :=
  GetAssetByName (scripted [SendOk (reply 200 [] "none")]) at_minimum api_keys string
    marshal_query decode_names any_url base_url Background "web-1" World0.

Definition run_two_assets : result string * World :=
  GetAssetByName (scripted [SendOk (reply 200 [] "two")]) at_minimum api_keys string
    marshal_query decode_names any_url base_url Background "web-1" World0.

Definition run_dozen_assets : result string * World :=
  GetAssetByName (scripted [SendOk (reply 200 [] "dozen")]) at_minimum api_keys string
    marshal_query decode_dozen any_url base_url Background "web-1" World0.

(** A service that is down and says when to come back. *)
Definition unavailable : Response := reply 503 [("Retry-After", ["120"])] EmptyString.

Definition run_unavailable : result (option Z) * World :=
  performCallAndReadResponse
    (scripted [SendOk unavailable; SendOk (reply 200 [] "42")]) at_minimum api_keys
    (get_scans Background) (Some decode_int) World0.

(** A request whose body breaks off while it is read. *)
Definition broken_body : Reader :=
  {| unread := "ab"; read_err := Some "unexpected EOF"; close_err := None |}.

Definition broken_post : Request :=
  {| Method := "POST"; URL := "https://cloud.tenable.com/scans"; ReqHeader := [];
     Body := Some broken_body; Ctx := Background |}.

Definition run_broken_post : result (option Z) * World :=
  performCallAndReadResponse Do_500_then_200 at_minimum api_keys broken_post
    (Some decode_int) World0.

(** The scan-control calls on scan 42, retried once. *)
Definition run_launch : option error * World :=
  LaunchScanContext Do_500_then_200 at_minimum api_keys any_url base_url Background 42 World0.

Definition run_stop : option error * World :=
  StopScanContext Do_500_then_200 at_minimum api_keys any_url base_url Background 42 World0.

Definition run_delete : option error * World :=
  DeleteScanContext Do_500_then_200 at_minimum api_keys any_url base_url Background 42 World0.

(** Decoders that take the body for the one name, or the value, it
    carries. *)
Definition decode_listing (r : Reader) : result (list (option string)) :=
  Ok [Some (unread r)].

Definition decode_string (r : Reader) : result string := Ok (unread r).

Definition question_mark_query (u key value : string) : string :=
  u ++ "?" ++ key ++ "=" ++ value.

Definition run_templates_ten_500 : result (list (option string)) * World :=
  GetScanTemplatesContext (scripted (map SendOk ten_500)) at_minimum api_keys any_url
    base_url string decode_listing Background World0.

Definition run_scans (Do : nat -> Z -> Request -> SendResult) (date : Z)
  : result (list (option string)) * World :=
  GetScansContext Do at_minimum api_keys any_url base_url string decode_listing
    question_mark_query Background date World0.

(** A scan detail and a policy as a server might send them, each under
    an id of its own. *)
Definition detail_7 : ScanDetail.t :=
  {| ScanDetail.ID := 7; ScanDetail.Info := Info.mk "completed";
     ScanDetail.Hosts := [Host.mk 1 "web-1"]; ScanDetail.Vulnerabilities := [] |}.

Definition decode_detail (r : Reader) : result (option ScanDetail.t) :=
  if String.eqb (unread r) "null" then Ok None else Ok (Some detail_7).

Definition policy_7 : Policy.t :=
  {| Policy.ID := 7; Policy.UUID := "ad629e16"; Policy.Settings := PolicySettings.mk "basic" |}.

Definition decode_policy_7 (r : Reader) : result Policy.t := Ok policy_7.

Definition Do_detail : nat -> Z -> Request -> SendResult :=
  scripted [SendOk status_500; SendOk (reply 200 [] "{}")].

Definition run_scan_detail : returned ScanDetail.t * World :=
  GetScanByIDContext Do_detail at_minimum api_keys any_url base_url decode_detail
    Background 42 World0.

(** The same scan, answered with the JSON value [null]. *)
Definition run_scan_null : returned ScanDetail.t * World :=
  GetScanByIDContext (scripted [SendOk (reply 200 [] "null")]) at_minimum api_keys any_url
    base_url decode_detail Background 42 World0.

Definition run_policy : result Policy.t * World :=
  GetPolicyByIDContext Do_detail at_minimum api_keys any_url base_url decode_policy_7
    Background 42 World0.

(** A scan is created at the first attempt; scans and plugins are
    strings here. *)
Definition marshal_string (s : string) : result bytes := Ok ("scan:" ++ s).

Definition Do_created : nat -> Z -> Request -> SendResult :=
  scripted [SendOk (reply 200 [] "created")].

Definition run_create_scan : result string * World :=
  CreateScanContext Do_created at_minimum api_keys any_url base_url string string
    EmptyString marshal_string decode_string Background "weekly" World0.

Definition run_plugin : result string * World :=
  GetPluginByIDContext Do_created at_minimum api_keys any_url base_url string EmptyString
    decode_string Background 19506 World0.

Definition run_plugin_output : result string * World :=
  GetPluginOutputContext Do_created at_minimum api_keys any_url base_url string EmptyString
    decode_string Background 42 2 19506 World0.

(** A server that hands out the first page, cursor and all, for ever. *)
Definition Do_page1_for_ever : nat -> Z -> Request -> SendResult :=
  fun _ _ _ => SendOk (reply 200 [] "page1").

(** The first page arrives, the fetch of the second fails. *)
Definition Do_page1_then_reset : nat -> Z -> Request -> SendResult :=
  scripted [SendOk (reply 200 [] "page1"); SendErr "connection reset by peer"].

Definition run_page1_then_reset : option (result (list string) * World) :=
  GetFindingsByAssetName Do_page1_then_reset at_minimum api_keys string marshal_query
    decode_pages any_url base_url 1 Background "web-1" World0.

End Fixtures.

(** * Properties *)

Open Scope list_scope.

(** ** The observations distribute over the concatenation of traces *)

Lemma requests_sent_app a b : requests_sent (a ++ b) = requests_sent a ++ requests_sent b.
Proof. apply flat_map_app. Qed.
Lemma sleeps_of_app a b : sleeps_of (a ++ b) = sleeps_of a ++ sleeps_of b.
Proof. apply flat_map_app. Qed.
Lemma closes_of_app a b : closes_of (a ++ b) = closes_of a ++ closes_of b.
Proof. apply flat_map_app. Qed.
Lemma auth_calls_app a b : auth_calls (a ++ b) = auth_calls a ++ auth_calls b.
Proof. apply flat_map_app. Qed.
Lemma retries_logged_app a b : retries_logged (a ++ b) = retries_logged a ++ retries_logged b.
Proof. apply flat_map_app. Qed.

Lemma bodies_read_app a b : bodies_read (a ++ b) = bodies_read a ++ bodies_read b.
Proof. apply flat_map_app. Qed.

Create Rewrite HintDb project.

#[local] Hint Rewrite requests_sent_app sleeps_of_app closes_of_app auth_calls_app
  retries_logged_app bodies_read_app : project.

Lemma added_app w0 evs w :
  trace w = trace w0 ++ evs -> added w0 w = evs.
Proof.
  intros H. unfold added. rewrite H.
  rewrite skipn_app, skipn_all, Nat.sub_diag. reflexivity.
Qed.

Lemma requests_sent_logs logs : requests_sent (map EvLog logs) = [].
Proof. induction logs; simpl; auto. Qed.
Lemma sleeps_of_logs logs : sleeps_of (map EvLog logs) = [].
Proof. induction logs; simpl; auto. Qed.
Lemma closes_of_logs logs : closes_of (map EvLog logs) = [].
Proof. induction logs; simpl; auto. Qed.
Lemma auth_calls_logs logs : auth_calls (map EvLog logs) = [].
Proof. induction logs; simpl; auto. Qed.

Lemma bodies_read_logs logs : bodies_read (map EvLog logs) = [].
Proof. induction logs; simpl; auto. Qed.

Lemma drained_idem req : drained (drained req) = drained req.
Proof. unfold drained, set_Body. destruct (Body req); reflexivity. Qed.

Lemma drained_Ctx req : Ctx (drained req) = Ctx req.
Proof. reflexivity. Qed.

Lemma wait_after_spec rs d w :
  exists logs,
    wait_after rs d w =
      (wait_of rs d,
       {| sends := sends w; draws := draws w; now := now w;
          trace := trace w ++ map EvLog logs |})
    /\ retries_logged (map EvLog logs) = [retry_class rs].
Proof.
  unfold wait_of, wait_after, retry_class.
  destruct (StatusCode rs =? StatusTooManyRequests).
  - destruct (String.eqb _ _).
    + exists [LogRateLimit d]. split; reflexivity.
    + destruct (Atoi _) as [n|].
      * exists [LogRateLimit (Duration_mul n Second)]. split; reflexivity.
      * eexists [_; LogRateLimit d]. unfold log_Printf, emit. simpl.
        rewrite <- app_assoc. split; reflexivity.
  - exists [LogUnexpectedStatus (StatusCode rs) d]. split; reflexivity.
Qed.

Section Steps.
Variable Do : nat -> Z -> Request -> SendResult.
Variable ForAttempt : nat -> Backoff -> Duration.

Lemma failed_attempt_spec req bs id rs b w :
  exists evs rs',
    failed_attempt ForAttempt req bs id rs b w =
      (advance b, rs',
       {| sends := sends w; draws := S (draws w);
          now := now w + Z.max 0 (wait_of rs (ForAttempt (draws w) b));
          trace := trace w ++ evs |})
    /\ requests_sent evs = []
    /\ sleeps_of evs = [wait_of rs (ForAttempt (draws w) b)]
    /\ closes_of evs = [id]
    /\ auth_calls evs = []
    /\ bodies_read evs = []
    /\ retries_logged evs = [retry_class rs].
Proof.
  unfold failed_attempt, Backoff_Duration, close_body, log_if_error, log_Printf, emit, time_Sleep, ReadAll.
  cbn [sends draws now trace].
  match goal with |- context [wait_after ?r ?d ?w'] =>
    destruct (wait_after_spec r d w') as [logs [-> Hl]] end.
  cbn [sends draws now trace].
  destruct (read_err (RespBody rs)); destruct (close_err (RespBody rs));
    cbn [sends draws now trace];
    repeat rewrite <- app_assoc; cbn [app];
    (eexists; eexists; split; [reflexivity|]);
    repeat split; cbn;
    rewrite ?requests_sent_app, ?sleeps_of_app, ?closes_of_app, ?auth_calls_app, ?retries_logged_app,
      ?bodies_read_app, ?Hl,
      ?requests_sent_logs, ?sleeps_of_logs, ?closes_of_logs, ?auth_calls_logs,
      ?bodies_read_logs; cbn.
  all: reflexivity.
Qed.

Lemma attempts_fails fails :
  forall n req bs b res w,
    answered Do ForAttempt (Ctx req) fails (sends w) (draws w) (now w) b ->
    (List.length fails <= n)%nat ->
    exists req' b' res' evs,
      attempts Do ForAttempt n req bs b res w =
        attempts Do ForAttempt (n - List.length fails) req' bs b' res'
          {| sends := sends w + List.length fails;
             draws := draws w + List.length fails;
             now := now w + slept (waits ForAttempt fails (draws w) b);
             trace := trace w ++ evs |}
      /\ Ctx req' = Ctx req
      /\ match fails with
         | [] => req' = req /\ res' = res
         | _ :: _ =>
             req' = drained req /\
             exists rs', res' = Some ((sends w + List.length fails - 1)%nat, rs')
         end
      /\ requests_sent evs =
           match fails with
           | [] => []
           | _ :: rest => req :: repeat (drained req) (List.length rest)
           end
      /\ sleeps_of evs = waits ForAttempt fails (draws w) b
      /\ closes_of evs = seq (sends w) (List.length fails)
      /\ auth_calls evs = []
      /\ bodies_read evs = []
      /\ retries_logged evs = map retry_class fails.
Proof.
  induction fails as [|rs rest IH]; intros n req bs b res w Hans Hlen.
  - exists req, b, res, []. cbn [List.length waits slept fold_right].
    rewrite Nat.sub_0_r, !Nat.add_0_r, Z.add_0_r, app_nil_r.
    destruct w; repeat split; reflexivity.
  - destruct n as [|n]; [cbn in Hlen; lia|].
    cbn [answered] in Hans. destruct Hans as (HDo & Hst & Hrest).
    cbn [attempts]. unfold httpClient_Do. rewrite (HDo req eq_refl).
    apply Z.leb_le in Hst. rewrite Hst.
    destruct (failed_attempt_spec (drained req) bs (sends w) rs b
                {| sends := S (sends w); draws := draws w; now := now w;
                   trace := trace w ++ [EvDo req] |})
      as (ev1 & rs1 & -> & Hq1 & Hs1 & Hc1 & Ha1 & Hb1 & Hr1).
    cbn [sends draws now trace] in *.
    destruct (IH n (drained req) bs (advance b) (Some (sends w, rs1))
                {| sends := S (sends w); draws := S (draws w);
                   now := now w + Z.max 0 (wait_of rs (ForAttempt (draws w) b));
                   trace := (trace w ++ [EvDo req]) ++ ev1 |})
      as (req' & b' & res' & evs & -> & HC & Hshape & Hq & Hs & Hc & Ha & Hb & Hr).
    { exact Hrest. }
    { cbn in Hlen |- *. lia. }
    cbn [sends draws now trace List.length waits slept fold_right] in *.
    exists req', b', res', ([EvDo req] ++ ev1 ++ evs).
    split.
    { f_equal. f_equal; try lia.
      - fold (slept (waits ForAttempt rest (S (draws w)) (advance b))). lia.
      - rewrite <- !app_assoc. reflexivity. }
    split; [rewrite HC; apply drained_Ctx|].
    split.
    { destruct rest as [|r2 rest'].
      - destruct Hshape as [-> ->]. split; [reflexivity|].
        exists rs1. do 2 f_equal. cbn. lia.
      - destruct Hshape as [-> [rs' ->]]. split; [apply drained_idem|].
        exists rs'. do 2 f_equal. cbn [List.length]. lia. }
    rewrite !requests_sent_app, !sleeps_of_app, !closes_of_app, !auth_calls_app,
      !retries_logged_app, !bodies_read_app,
      Hq1, Hs1, Hc1, Ha1, Hb1, Hr1, Hq, Hs, Hc, Ha, Hb, Hr.
    cbn. repeat split.
    destruct rest as [|r2 rest']; cbn; [reflexivity|].
    rewrite drained_idem. reflexivity.
Qed.
End Steps.

Lemma answers_cons Do s0 o outs :
  answers Do s0 (o :: outs) ->
  (forall t req, Do s0 t req = o) /\ answers Do (S s0) outs.
Proof.
  intros H. split.
  - intros t req. rewrite <- (Nat.add_0_r s0). apply (H 0%nat). reflexivity.
  - intros i o' Hi t req. replace (S s0 + i)%nat with (s0 + S i)%nat by lia.
    apply H. exact Hi.
Qed.

Lemma answers_app Do s0 a b :
  answers Do s0 (a ++ b) ->
  answers Do s0 a /\ answers Do (s0 + List.length a) b.
Proof.
  revert s0. induction a as [|o a IH]; intros s0 H.
  - split; [intros i o Hi; destruct i; discriminate|].
    rewrite Nat.add_0_r. exact H.
  - cbn [app] in H. apply answers_cons in H. destruct H as [H0 H].
    apply IH in H. destruct H as [Ha Hb]. split.
    + intros i o' Hi t req. destruct i as [|i].
      * cbn in Hi. inversion Hi; subst. rewrite Nat.add_0_r. apply H0.
      * replace (s0 + S i)%nat with (S s0 + i)%nat by lia. apply Ha. exact Hi.
    + cbn [List.length]. replace (s0 + S (List.length a))%nat
        with (S s0 + List.length a)%nat by lia. exact Hb.
Qed.

Lemma answers_answered Do FA fails :
  forall ctx s0 k t b,
    answers Do s0 (map SendOk fails) ->
    Forall (fun rs => 300 <= StatusCode rs) fails ->
    answered Do FA ctx fails s0 k t b.
Proof.
  induction fails as [|rs rest IH]; intros ctx s0 k t b Hans Hall; cbn; [exact I|].
  cbn [map] in Hans. apply answers_cons in Hans. destruct Hans as [H0 Hrest].
  inversion Hall; subst. repeat split; auto.
Qed.

Section Call.
Variable Do : nat -> Z -> Request -> SendResult.
Variable ForAttempt : nat -> Backoff -> Duration.
Variable AddAuthHeaders : Request -> Request.

Lemma performCall_unfold (T : Type) req (data : option (Reader -> result T)) w :
  body_readable req ->
  performCallAndReadResponse Do ForAttempt AddAuthHeaders req data w =
    after_loop data
      (attempts Do ForAttempt retry_budget (prepared AddAuthHeaders req)
         (presented_body req) initial_backoff None
         {| sends := sends w; draws := draws w; now := now w;
            trace := trace w ++ prelude req |}).
Proof.
  unfold body_readable, performCallAndReadResponse, buffer_request_body,
    prepared, presented_body, prelude, emit.
  destruct (Body req) as [r|]; intros Hr.
  - unfold ReadAll. rewrite Hr. cbn [sends draws now trace].
    rewrite <- app_assoc. reflexivity.
  - reflexivity.
Qed.

(** What the deferred closure and the decoding add after the loop. *)
Lemma after_loop_spec (T : Type) (data : option (Reader -> result T)) x :
  exists evs,
    snd (after_loop data x) =
      {| sends := sends (exit_world x); draws := draws (exit_world x);
         now := now (exit_world x); trace := trace (exit_world x) ++ evs |}
    /\ requests_sent evs = [] /\ sleeps_of evs = [] /\ auth_calls evs = []
    /\ bodies_read evs = [] /\ retries_logged evs = []
    /\ closes_of evs =
         match x with
         | LoopReturn _ _ => []
         | LoopBreak id _ _ => [id]
         | LoopExhausted (Some (id, _)) _ => [id]
         | LoopExhausted None _ => []
         end.
Proof.
  destruct x as [e w|id rs w|[[id rs]|] w]; cbn [after_loop exit_world].
  - exists []. rewrite app_nil_r. destruct w; repeat split; reflexivity.
  - destruct data as [decode|]; [destruct (decode (RespBody rs))|];
      cbn [snd deferred_close]; unfold close_body, log_if_error, log_Printf, emit;
      destruct (close_err (RespBody rs)); cbn [sends draws now trace];
      rewrite <- ?app_assoc; cbn [app];
      (eexists; split; [reflexivity|]); repeat split; reflexivity.
  - cbn [snd deferred_close]; unfold close_body, log_if_error, log_Printf, emit;
      destruct (close_err (RespBody rs)); cbn [sends draws now trace];
      rewrite <- ?app_assoc; cbn [app];
      (eexists; split; [reflexivity|]); repeat split; reflexivity.
  - exists []. cbn. rewrite app_nil_r. destruct w; repeat split; reflexivity.
Qed.

Lemma prelude_obs req :
  requests_sent (prelude req) = [] /\ sleeps_of (prelude req) = []
  /\ closes_of (prelude req) = [] /\ auth_calls (prelude req) = [tt]
  /\ retries_logged (prelude req) = []
  /\ bodies_read (prelude req) =
       match Body req with Some r => [unread r] | None => [] end.
Proof. unfold prelude. destruct (Body req); repeat split; reflexivity. Qed.

(** A call whose first sends are answered by [fails]: the state in
    which the loop goes on after them. *)
Lemma performCall_fails (T : Type) req (data : option (Reader -> result T)) w fails :
  body_readable req ->
  answered Do ForAttempt (Ctx (prepared AddAuthHeaders req)) fails (sends w) (draws w)
    (now w) initial_backoff ->
  (List.length fails <= retry_budget)%nat ->
  exists req' b' res' evs,
    performCallAndReadResponse Do ForAttempt AddAuthHeaders req data w =
      after_loop data
        (attempts Do ForAttempt (retry_budget - List.length fails) req'
           (presented_body req) b' res'
           {| sends := sends w + List.length fails;
              draws := draws w + List.length fails;
              now := now w + slept (waits ForAttempt fails (draws w) initial_backoff);
              trace := trace w ++ prelude req ++ evs |})
    /\ Ctx req' = Ctx (prepared AddAuthHeaders req)
    /\ req' = match fails with
              | [] => prepared AddAuthHeaders req
              | _ :: _ => drained (prepared AddAuthHeaders req)
              end
    /\ match fails with
       | [] => res' = None
       | _ :: _ => exists rs', res' = Some ((sends w + List.length fails - 1)%nat, rs')
       end
    /\ requests_sent evs =
         match fails with
         | [] => []
         | _ :: rest =>
             prepared AddAuthHeaders req
               :: repeat (drained (prepared AddAuthHeaders req)) (List.length rest)
         end
    /\ sleeps_of evs = waits ForAttempt fails (draws w) initial_backoff
    /\ closes_of evs = seq (sends w) (List.length fails)
    /\ auth_calls evs = []
    /\ bodies_read evs = []
    /\ retries_logged evs = map retry_class fails.
Proof.
  intros Hread Hans Hlen.
  rewrite (performCall_unfold T req data w Hread).
  destruct (attempts_fails Do ForAttempt fails retry_budget
              (prepared AddAuthHeaders req) (presented_body req) initial_backoff None
              {| sends := sends w; draws := draws w; now := now w;
                 trace := trace w ++ prelude req |} Hans Hlen)
    as (req' & b' & res' & evs & -> & HC & Hshape & Hq & Hs & Hc & Ha & Hb & Hr).
  cbn [sends draws now trace] in *.
  exists req', b', res', evs. rewrite <- app_assoc.
  repeat split; auto.
  - destruct fails; apply Hshape.
  - destruct fails; [apply Hshape|]. destruct Hshape as [_ H]. exact H.
Qed.

(** Whatever the transport answers, the loop only appends to the
    trace, never calls the auth provider or reads the request body,
    and starts with a send when it runs at all. *)
Lemma attempts_any n :
  forall req bs b res w,
    exists evs,
      trace (exit_world (attempts Do ForAttempt n req bs b res w)) = trace w ++ evs
      /\ auth_calls evs = [] /\ bodies_read evs = []
      /\ (n <> 0%nat -> exists evs', evs = EvDo req :: evs').
Proof.
  induction n as [|n IH]; intros req bs b res w.
  - exists []. cbn. rewrite app_nil_r. repeat split. intros H; contradiction.
  - cbn [attempts]. unfold httpClient_Do.
    destruct (Do (sends w) (now w) req) as [rs|e].
    + destruct (300 <=? StatusCode rs).
      * destruct (failed_attempt_spec ForAttempt (drained req) bs (sends w) rs b
                    {| sends := S (sends w); draws := draws w; now := now w;
                       trace := trace w ++ [EvDo req] |})
          as (ev1 & rs1 & -> & _ & _ & _ & Ha1 & Hb1 & _).
        cbn [sends draws now trace].
        match goal with |- context [attempts _ _ n ?q ?s ?b' ?r ?w'] =>
          destruct (IH q s b' r w') as (evs & -> & Ha & Hb & _) end.
        cbn [trace]. exists ([EvDo req] ++ ev1 ++ evs).
        rewrite <- !app_assoc. split; [reflexivity|].
        rewrite !auth_calls_app, !bodies_read_app, Ha1, Hb1, Ha, Hb.
        repeat split. intros _. eexists. reflexivity.
      * cbn [exit_world trace]. exists [EvDo req]. repeat split.
        intros _. eexists. reflexivity.
    + cbn [exit_world trace]. exists [EvDo req]. repeat split.
      intros _. eexists. reflexivity.
Qed.

Lemma attempts_break n req bs b res w rs :
  Do (sends w) (now w) req = SendOk rs ->
  StatusCode rs < 300 ->
  attempts Do ForAttempt (S n) req bs b res w =
    LoopBreak (sends w) rs
      {| sends := S (sends w); draws := draws w; now := now w;
         trace := trace w ++ [EvDo req] |}.
Proof.
  intros HDo Hst. cbn [attempts]. unfold httpClient_Do. rewrite HDo.
  apply Z.leb_gt in Hst. rewrite Hst. reflexivity.
Qed.

Lemma attempts_error n req bs b res w e :
  Do (sends w) (now w) req = SendErr e ->
  attempts Do ForAttempt (S n) req bs b res w =
    LoopReturn (errors_New ("Failed call: " ++ e)%string)
      {| sends := S (sends w); draws := draws w; now := now w;
         trace := trace w ++ [EvDo req] |}.
Proof.
  intros HDo. cbn [attempts]. unfold httpClient_Do. rewrite HDo. reflexivity.
Qed.
End Call.

Lemma scripted_answers outs : answers (Fixtures.scripted outs) 0 outs.
Proof.
  intros i o Hi t req. unfold Fixtures.scripted. cbn [Nat.add].
  apply nth_error_nth. exact Hi.
Qed.

Lemma waits_length FA fails : forall k b, List.length (waits FA fails k b) = List.length fails.
Proof. induction fails as [|rs rest IH]; intros k b; cbn; [reflexivity|]. rewrite IH. reflexivity. Qed.

Lemma requests_sent_shape_length (req : Request) (fails : list Response) :
  List.length
    (match fails with
     | [] => []
     | _ :: rest => req :: repeat (drained req) (List.length rest)
     end) = List.length fails.
Proof. destruct fails; cbn; [reflexivity|]. rewrite repeat_length. reflexivity. Qed.

Lemma wrap64_small z : - 2 ^ 63 <= z < 2 ^ 63 -> wrap64 z = z.
Proof.
  intros H. unfold wrap64. rewrite Z.mod_small; lia.
Qed.

(** The wait after a 429 is the header's count of seconds when
    [strconv.Atoi] accepts it, and the generator's duration otherwise. *)
Lemma wait_of_429 rs d :
  StatusCode rs = 429 ->
  wait_of rs d =
    match Atoi (Header_Get (RespHeader rs) "retry-after") with
    | Some n => Duration_mul n Second
    | None => d
    end.
Proof.
  intros H. unfold wait_of, wait_after. rewrite H. cbn [Z.eqb StatusTooManyRequests Pos.eqb].
  destruct (String.eqb_spec (Header_Get (RespHeader rs) "retry-after") EmptyString) as [->|_].
  - reflexivity.
  - destruct (Atoi _); reflexivity.
Qed.

Lemma nth_error_waits FA fails :
  forall i rs k b,
    nth_error fails i = Some rs ->
    nth_error (waits FA fails k b) i =
      Some (wait_of rs (FA (k + i)%nat (Nat.iter i advance b))).
Proof.
  induction fails as [|r rest IH]; intros i rs k b Hi; [destruct i; discriminate|].
  destruct i as [|i]; cbn in Hi |- *.
  - inversion Hi; subst. rewrite Nat.add_0_r. reflexivity.
  - rewrite (IH i rs (S k) (advance b) Hi).
    replace (S k + i)%nat with (k + S i)%nat by lia.
    rewrite <- Nat.iter_succ_r. reflexivity.
Qed.

Lemma presented_body_drained q : presented_body (drained q) = EmptyString.
Proof. unfold presented_body, drained, set_Body. cbn. destruct (Body q); reflexivity. Qed.

Lemma count_occ_seq s n x :
  (s <= x < s + n)%nat -> count_occ Nat.eq_dec (seq s n) x = 1%nat.
Proof.
  intros H. apply NoDup_count_occ'; [apply seq_NoDup|]. apply in_seq. exact H.
Qed.

Lemma slept_nonneg ds : 0 <= slept ds.
Proof.
  induction ds as [|d ds IH]; [cbn; lia|].
  change (0 <= Z.max 0 d + slept ds). lia.
Qed.

(** Under a context that fires at [tc], a transport that honours it
    still answers every send made before [tc]. *)
Lemma answered_with_context Do FA ctx tc fails :
  forall s k t b,
    answers Do s (map SendOk fails) ->
    Forall (fun rs => 300 <= StatusCode rs) fails ->
    done_at ctx = Some tc ->
    fails <> [] ->
    t + slept (removelast (waits FA fails k b)) < tc ->
    answered (with_context Do) FA ctx fails s k t b.
Proof.
  induction fails as [|rs rest IH]; intros s k t b Hans Hall Hd Hne Ht; [contradiction|].
  cbn [map] in Hans. apply answers_cons in Hans. destruct Hans as [H0 Hrest].
  inversion Hall; subst. cbn [answered waits] in *.
  assert (Hpos := slept_nonneg (removelast (wait_of rs (FA k b) :: waits FA rest (S k) (advance b)))).
  split; [|split; [assumption|]].
  - intros req Hc. unfold with_context, ctx_Done. rewrite Hc, Hd.
    replace (tc <=? t) with false by (symmetry; apply Z.leb_gt; lia). apply H0.
  - destruct rest as [|r2 rest']; [exact I|].
    apply IH; auto; [discriminate|].
    change (t + (Z.max 0 (wait_of rs (FA k b))
                 + slept (removelast (waits FA (r2 :: rest') (S k) (advance b)))) < tc) in Ht.
    lia.
Qed.


Section Claims.
Variable Do : nat -> Z -> Request -> SendResult.
Variable ForAttempt : nat -> Backoff -> Duration.
Variable AddAuthHeaders : Request -> Request.


(** The outcome of a call whose sends are answered by the failed
    responses [fails] and then by [final], a status below 300. *)
Lemma performCall_success (T : Type) req (data : option (Reader -> result T)) w
    fails final :
  body_readable req ->
  (List.length fails < retry_budget)%nat ->
  Forall (fun rs => 300 <= StatusCode rs) fails ->
  StatusCode final < 300 ->
  answers Do (sends w) (map SendOk (fails ++ [final])) ->
  exists evs,
    performCallAndReadResponse Do ForAttempt AddAuthHeaders req data w =
      (match data with
       | None => Ok None
       | Some decode =>
           match decode (RespBody final) with
           | Ok v => Ok (Some v)
           | Err e => Err (errors_New ("Failed to read the response: " ++ e)%string)
           end
       end,
       {| sends := sends w + S (List.length fails);
          draws := draws w + List.length fails;
          now := now w + slept (waits ForAttempt fails (draws w) initial_backoff);
          trace := trace w ++ evs |})
    /\ List.length (requests_sent evs) = S (List.length fails)
    /\ sleeps_of evs = waits ForAttempt fails (draws w) initial_backoff
    /\ closes_of evs = seq (sends w) (S (List.length fails))
    /\ auth_calls evs = [tt]
    /\ retries_logged evs = map retry_class fails
    /\ bodies_read evs = match Body req with Some r => [unread r] | None => [] end.
Proof.
  intros Hread Hlen Hall Hfin Hans.
  rewrite map_app in Hans. apply answers_app in Hans. destruct Hans as [Hf Hl].
  rewrite length_map in Hl. apply answers_cons in Hl. destruct Hl as [Hl _].
  destruct (performCall_fails Do ForAttempt AddAuthHeaders T req data w fails Hread)
  as (req' & b' & res' & evs & Heq & _ & _ & _ & Hq & Hs & Hc & Ha & Hb & Hr).
{ apply answers_answered; assumption. }
{ lia. }
destruct (prelude_obs req) as (Pq & Ps & Pc & Pa & Pr & Pb).
destruct (retry_budget - List.length fails)%nat as [|m] eqn:E; [lia|].
rewrite (attempts_break Do ForAttempt m req' _ b' res' _ final) in Heq;
  [|apply Hl|exact Hfin].
cbn [sends draws now trace] in Heq. rewrite Heq. clear Heq.
assert (Hlenq : List.length (requests_sent evs) = List.length fails).
{ rewrite Hq. destruct fails; cbn; [reflexivity|]. rewrite repeat_length. reflexivity. }
assert (Hseq : seq (sends w) (S (List.length fails)) =
               seq (sends w) (List.length fails) ++ [(sends w + List.length fails)%nat]).
{ rewrite seq_S. reflexivity. }
cbn [after_loop].
destruct data as [decode|]; [destruct (decode (RespBody final))|];
  cbn [deferred_close]; unfold close_body, log_if_error, log_Printf, emit;
  destruct (close_err (RespBody final)); cbn [sends draws now trace];
  rewrite <- ?app_assoc;
  (eexists; split; [f_equal; f_equal; first [lia | reflexivity] |]);
  autorewrite with project; rewrite Pq, Ps, Pc, Pa, Pr, Pb, Hs, Hc, Ha, Hb, Hr, Hseq, ?length_app, Hlenq;
  cbn; rewrite ?app_nil_r;
  (repeat split; try reflexivity; try lia).
Qed.

(** C3.  When ten sends in a row are answered with a status of 300 or
    more, and no send fails in the transport, the call makes exactly
    ten attempts and returns the error "Retry limit exceeded". *)
Theorem C3_ten_failures_exhaust_the_retry_budget
    (T : Type) req (data : option (Reader -> result T)) w outs :
  body_readable req ->
  List.length outs = 10%nat ->
  Forall (fun rs => 300 <= StatusCode rs) outs ->
  answers Do (sends w) (map SendOk outs) ->
  let out := performCallAndReadResponse Do ForAttempt AddAuthHeaders req data w in
  fst out = Err (errors_New "Retry limit exceeded")
  /\ List.length (requests_sent (added w (snd out))) = 10%nat.
Proof.
  intros Hread Hlen Hall Hans out. subst out.
  destruct (performCall_fails Do ForAttempt AddAuthHeaders T req data w outs Hread)
    as (req' & b' & res' & evs & Heq & _ & _ & _ & Hq & _).
  { apply answers_answered; assumption. }
  { unfold retry_budget. lia. }
  rewrite Heq. clear Heq.
  replace (retry_budget - List.length outs)%nat with 0%nat by (unfold retry_budget; lia).
  cbn [attempts].
  match goal with |- context [after_loop data ?x] =>
    destruct (after_loop_spec T data x) as (ev2 & Hw & Hq2 & _) end.
  split; [reflexivity|].
  rewrite (added_app w (prelude req ++ evs ++ ev2)).
  - destruct (prelude_obs req) as (Pq & _).
    autorewrite with project. rewrite Pq, Hq, Hq2, app_nil_r. cbn [app].
    rewrite requests_sent_shape_length. exact Hlen.
  - rewrite Hw. cbn [exit_world trace]. rewrite <- !app_assoc. reflexivity.
Qed.

(** C4, amended.  When the sends are answered by at most nine
    responses with a status of 300 or more and then by one with a
    status below 300, the call makes exactly that many attempts; the
    last status is treated as a success, each earlier one as rate
    limited when it is 429 and as a retryable failure otherwise; and
    the call returns without error when no target is supplied or when
    the final body decodes into the target.  When the final body does
    not decode, the call returns the decoder's error, wrapped. *)
Theorem C4_success_after_retries
    (T : Type) req (data : option (Reader -> result T)) w fails final :
  body_readable req ->
  (List.length (fails ++ [final]) <= 10)%nat ->
  Forall (fun rs => 300 <= StatusCode rs) fails ->
  StatusCode final < 300 ->
  answers Do (sends w) (map SendOk (fails ++ [final])) ->
  let out := performCallAndReadResponse Do ForAttempt AddAuthHeaders req data w in
  List.length (requests_sent (added w (snd out))) = List.length (fails ++ [final])
  /\ classify (StatusCode final) = Success
  /\ retries_logged (added w (snd out)) =
       map (fun rs => if StatusCode rs =? 429 then RateLimited else RetryableFailure) fails
  /\ fst out =
       match data with
       | None => Ok None
       | Some decode =>
           match decode (RespBody final) with
           | Ok v => Ok (Some v)
           | Err e => Err (errors_New ("Failed to read the response: " ++ e)%string)
           end
       end.
Proof.
  intros Hread Hlen Hall Hfin Hans out. subst out.
  rewrite length_app in *. cbn [List.length] in *.
  destruct (performCall_success T req data w fails final Hread) as (evs & -> & Hq & _ & _ & _ & Hr & _);
    try assumption.
  { unfold retry_budget. lia. }
  cbn [fst snd]. rewrite (added_app w evs) by reflexivity.
  repeat split.
  - rewrite Hq. lia.
  - unfold classify. apply Z.leb_gt in Hfin. rewrite Hfin. reflexivity.
  - exact Hr.
Qed.

(** C6.  When a send fails in the transport, on whichever attempt, the
    call returns the transport's error at once: the failed send is the
    last effect of the call, so no sleep and no further attempt follow
    it.  A failure on the first attempt means a single send. *)
Theorem C6_transport_failure_is_not_retried
    (T : Type) req (data : option (Reader -> result T)) w fails e :
  body_readable req ->
  (List.length fails < 10)%nat ->
  Forall (fun rs => 300 <= StatusCode rs) fails ->
  answers Do (sends w) (map SendOk fails ++ [SendErr e]) ->
  let out := performCallAndReadResponse Do ForAttempt AddAuthHeaders req data w in
  fst out = Err (errors_New ("Failed call: " ++ e)%string)
  /\ exists evs rq,
       added w (snd out) = evs ++ [EvDo rq]
       /\ List.length (requests_sent evs) = List.length fails
       /\ List.length (sleeps_of evs) = List.length fails.
Proof.
  intros Hread Hlen Hall Hans out. subst out.
  apply answers_app in Hans. destruct Hans as [Hf Hl].
  rewrite length_map in Hl. apply answers_cons in Hl. destruct Hl as [Hl _].
  destruct (performCall_fails Do ForAttempt AddAuthHeaders T req data w fails Hread)
    as (req' & b' & res' & evs & Heq & _ & _ & _ & Hq & Hs & _).
  { apply answers_answered; assumption. }
  { unfold retry_budget. lia. }
  rewrite Heq. clear Heq.
  destruct (retry_budget - List.length fails)%nat as [|m] eqn:E;
    [unfold retry_budget in E; lia|].
  rewrite (attempts_error Do ForAttempt m req' _ b' res' _ e) by apply Hl.
  cbn [after_loop fst snd]. split; [reflexivity|].
  exists (prelude req ++ evs), req'. split.
  - apply added_app. cbn [trace]. rewrite <- !app_assoc. reflexivity.
  - destruct (prelude_obs req) as (Pq & Ps & _).
    autorewrite with project. rewrite Pq, Ps, Hq, Hs. cbn [app].
    rewrite requests_sent_shape_length, waits_length. split; reflexivity.
Qed.


(** The effects of a whole call, whatever the transport answers: the
    prelude, then a first send of the prepared request, then effects
    among which the auth provider and the request body never appear. *)
Lemma performCall_shape (T : Type) req (data : option (Reader -> result T)) w :
  body_readable req ->
  exists post,
    added w (snd (performCallAndReadResponse Do ForAttempt AddAuthHeaders req data w)) =
      prelude req ++ EvDo (prepared AddAuthHeaders req) :: post
    /\ auth_calls post = [] /\ bodies_read post = [].
Proof.
  intros Hread. rewrite (performCall_unfold Do ForAttempt AddAuthHeaders T req data w Hread).
  match goal with |- context [after_loop data ?x] =>
    destruct (after_loop_spec T data x) as (ev2 & Hw & _ & _ & Ha2 & Hb2 & _) end.
  match type of Hw with context [attempts _ _ ?n ?q ?s ?b ?r ?w'] =>
    destruct (attempts_any Do ForAttempt n q s b r w') as (evs & Ht & Ha & Hb & Hne) end.
  destruct Hne as [evs' ->]; [unfold retry_budget; discriminate|].
  exists (evs' ++ ev2). split.
  - apply added_app. rewrite Hw. cbn [trace]. rewrite Ht. cbn [trace].
    rewrite <- !app_assoc. reflexivity.
  - change (auth_calls evs' = []) in Ha. change (bodies_read evs' = []) in Hb.
    rewrite auth_calls_app, bodies_read_app, Ha, Hb, Ha2, Hb2.
    split; reflexivity.
Qed.

(** C1, the code against the claim.  The body is read once, before the
    loop; the first send is presented with the buffered bytes, but the
    reader that holds them is not renewed inside the loop, so the send
    that follows a failed attempt is presented with an empty body. *)
Theorem C1_retry_is_presented_with_a_drained_body
    (T : Type) req (data : option (Reader -> result T)) w r rs :
  Body req = Some r ->
  read_err r = None ->
  (forall q, Body (AddAuthHeaders q) = Body q) ->
  (forall t q, Do (sends w) t q = SendOk rs) ->
  300 <= StatusCode rs ->
  let out := performCallAndReadResponse Do ForAttempt AddAuthHeaders req data w in
  bodies_read (added w (snd out)) = [unread r]
  /\ exists rest,
       bodies_presented (added w (snd out)) = unread r :: EmptyString :: rest.
Proof.
  intros HB Hr Hauth HDo Hst out. subst out.
  assert (Hread : body_readable req) by (unfold body_readable; rewrite HB; exact Hr).
  split.
  - destruct (performCall_shape T req data w Hread) as (post & -> & _ & Hb).
    change (EvDo (prepared AddAuthHeaders req) :: post)
      with ([EvDo (prepared AddAuthHeaders req)] ++ post).
    rewrite !bodies_read_app, Hb. unfold prelude. rewrite HB. reflexivity.
  - destruct (performCall_fails Do ForAttempt AddAuthHeaders T req data w [rs] Hread)
      as (req' & b' & res' & evs & Heq & _ & -> & _ & Hq & _).
    { cbn. repeat split; auto. }
    { unfold retry_budget. cbn. lia. }
    rewrite Heq. clear Heq.
    match goal with |- context [after_loop data ?x] =>
      destruct (after_loop_spec T data x) as (ev2 & Hw & _) end.
    match type of Hw with context [attempts _ _ ?n ?q ?s ?b ?r0 ?w'] =>
      destruct (attempts_any Do ForAttempt n q s b r0 w') as (ev1 & Ht & _ & _ & Hne) end.
    destruct Hne as [ev1' ->]; [unfold retry_budget; discriminate|].
    cbn [trace exit_world] in Ht.
    exists (map presented_body (requests_sent (ev1' ++ ev2))).
    rewrite (added_app w (prelude req ++ evs
                            ++ [EvDo (drained (prepared AddAuthHeaders req))]
                            ++ ev1' ++ ev2)).
    + destruct (prelude_obs req) as (Pq & _).
      unfold bodies_presented. autorewrite with project. rewrite Pq, Hq. cbn.
      rewrite presented_body_drained. f_equal.
      unfold prepared, presented_body. rewrite Hauth, HB. reflexivity.
    + rewrite Hw, Ht. rewrite <- !app_assoc. reflexivity.
Qed.


(** The sleeps of a call whose first sends are answered by [fails]
    begin with the waits those responses call for. *)
Lemma performCall_sleeps (T : Type) req (data : option (Reader -> result T)) w fails :
  body_readable req ->
  (List.length fails <= 10)%nat ->
  answered Do ForAttempt (Ctx (prepared AddAuthHeaders req)) fails
    (sends w) (draws w) (now w) initial_backoff ->
  exists more,
    sleeps_of (added w (snd (performCallAndReadResponse Do ForAttempt AddAuthHeaders req data w))) =
      waits ForAttempt fails (draws w) initial_backoff ++ more.
Proof.
  intros Hread Hlen Hans.
  destruct (performCall_fails Do ForAttempt AddAuthHeaders T req data w fails Hread Hans)
    as (req' & b' & res' & evs & Heq & _ & _ & _ & _ & Hs & _).
  { exact Hlen. }
  rewrite Heq. clear Heq.
  match goal with |- context [after_loop data ?x] =>
    destruct (after_loop_spec T data x) as (ev2 & Hw & _) end.
  match type of Hw with context [attempts _ _ ?n ?q ?s ?b ?r0 ?w'] =>
    destruct (attempts_any Do ForAttempt n q s b r0 w') as (ev1 & Ht & _) end.
  cbn [trace] in Ht.
  exists (sleeps_of (ev1 ++ ev2)).
  rewrite (added_app w (prelude req ++ evs ++ ev1 ++ ev2)).
  - destruct (prelude_obs req) as (_ & Ps & _).
    autorewrite with project. rewrite Ps, Hs. reflexivity.
  - rewrite Hw, Ht. rewrite <- !app_assoc. reflexivity.
Qed.

(** C5, amended.  After an attempt answered with status 429, the wait
    handed to [time.Sleep] is exactly [n] seconds when the
    [retry-after] header is accepted by [strconv.Atoi] as the integer
    [n] and [n] seconds fit in a [time.Duration] (a signed 64-bit count
    of nanoseconds, so [n] between -9223372036 and 9223372036),
    whatever the backoff generator computed; when the header is
    absent, empty or rejected by [Atoi], the wait is the duration the
    backoff generator computed for that attempt.  The attempt is the
    [i]-th of the call, and its wait the [i]-th sleep. *)
Theorem C5_wait_after_rate_limit
    (T : Type) req (data : option (Reader -> result T)) w fails i rs :
  body_readable req ->
  (List.length fails <= 10)%nat ->
  Forall (fun r => 300 <= StatusCode r) fails ->
  answers Do (sends w) (map SendOk fails) ->
  nth_error fails i = Some rs ->
  StatusCode rs = 429 ->
  let out := performCallAndReadResponse Do ForAttempt AddAuthHeaders req data w in
  let header := Header_Get (RespHeader rs) "retry-after" in
  let computed := ForAttempt (draws w + i)%nat (Nat.iter i advance initial_backoff) in
  (forall n, Atoi header = Some n -> -9223372036 <= n <= 9223372036 ->
             nth_error (sleeps_of (added w (snd out))) i = Some (n * Second))
  /\ (Atoi header = None ->
      nth_error (sleeps_of (added w (snd out))) i = Some computed).
Proof.
  intros Hread Hlen Hall Hans Hi Hst out header computed. subst out header computed.
  destruct (performCall_sleeps T req data w fails Hread Hlen) as (more & ->).
  { apply answers_answered; assumption. }
  assert (Hlt : (i < List.length (waits ForAttempt fails (draws w) initial_backoff))%nat).
  { rewrite waits_length. apply nth_error_Some. rewrite Hi. discriminate. }
  rewrite (nth_error_app1 _ _ Hlt), (nth_error_waits ForAttempt fails i rs _ _ Hi),
    (wait_of_429 rs _ Hst).
  split.
  - intros n Hn Hrange. rewrite Hn. unfold Duration_mul. rewrite wrap64_small; [reflexivity|].
    unfold Second. lia.
  - intros Hn. rewrite Hn. reflexivity.
Qed.

(** C7, the code against the claim.  When the retry budget is
    exhausted, the body of the tenth response is closed twice: once in
    the loop, after it has been read for the log, and once more by the
    deferred closure. *)
Theorem C7_last_body_closed_twice_when_budget_exhausted
    (T : Type) req (data : option (Reader -> result T)) w outs :
  body_readable req ->
  List.length outs = 10%nat ->
  Forall (fun rs => 300 <= StatusCode rs) outs ->
  answers Do (sends w) (map SendOk outs) ->
  let out := performCallAndReadResponse Do ForAttempt AddAuthHeaders req data w in
  times_closed (sends w + 9) (added w (snd out)) = 2%nat.
Proof.
  intros Hread Hlen Hall Hans out. subst out.
  destruct (performCall_fails Do ForAttempt AddAuthHeaders T req data w outs Hread)
    as (req' & b' & res' & evs & Heq & _ & _ & Hres & _ & _ & Hc & _).
  { apply answers_answered; assumption. }
  { unfold retry_budget. lia. }
  rewrite Heq. clear Heq.
  replace (retry_budget - List.length outs)%nat with 0%nat by (unfold retry_budget; lia).
  cbn [attempts].
  destruct outs as [|o outs']; [discriminate|]. destruct Hres as [rs' ->].
  match goal with |- context [after_loop data ?x] =>
    destruct (after_loop_spec T data x) as (ev2 & Hw & _ & _ & _ & _ & _ & Hc2) end.
  rewrite (added_app w (prelude req ++ evs ++ ev2)).
  - destruct (prelude_obs req) as (_ & _ & Pc & _).
    unfold times_closed. autorewrite with project. rewrite Pc, Hc, Hc2, Hlen. cbn [app].
    replace (sends w + 10 - 1)%nat with (sends w + 9)%nat by lia.
    rewrite count_occ_app, count_occ_seq by lia.
    cbn. destruct (Nat.eq_dec (sends w + 9) (sends w + 9)); [reflexivity|contradiction].
  - rewrite Hw. cbn [exit_world trace]. rewrite <- !app_assoc. reflexivity.
Qed.

(** On the paths that end in a success, every response body obtained
    is closed exactly once. *)
Lemma closed_once_on_success
    (T : Type) req (data : option (Reader -> result T)) w fails final id :
  body_readable req ->
  (List.length fails < 10)%nat ->
  Forall (fun rs => 300 <= StatusCode rs) fails ->
  StatusCode final < 300 ->
  answers Do (sends w) (map SendOk (fails ++ [final])) ->
  (sends w <= id <= sends w + List.length fails)%nat ->
  times_closed id (added w (snd (performCallAndReadResponse Do ForAttempt AddAuthHeaders req data w))) = 1%nat.
Proof.
  intros Hread Hlen Hall Hfin Hans Hid.
  destruct (performCall_success T req data w fails final Hread)
    as (evs & -> & _ & _ & Hc & _); try assumption.
  cbn [snd]. rewrite (added_app w evs) by reflexivity.
  unfold times_closed. rewrite Hc. apply count_occ_seq. lia.
Qed.


(** C9, amended.  The sleep between attempts is a plain [time.Sleep]:
    it takes no context and always runs for its full duration.  When
    the caller's context fires during the sleep that follows a failed
    attempt, the call goes on sleeping, then sends once more; the
    transport, which honours the context, fails that send, and the call
    returns the context's error wrapped as "Failed call: ...", the
    outcome of any transport failure.  No attempt follows that one. *)
Theorem C9_cancellation_is_seen_only_by_the_next_send
    (T : Type) req (data : option (Reader -> result T)) w fails tc :
  body_readable req ->
  (forall q, Ctx (AddAuthHeaders q) = Ctx q) ->
  done_at (Ctx req) = Some tc ->
  answers Do (sends w) (map SendOk fails) ->
  Forall (fun rs => 300 <= StatusCode rs) fails ->
  fails <> [] ->
  (List.length fails < 10)%nat ->
  let ws := waits ForAttempt fails (draws w) initial_backoff in
  now w + slept (removelast ws) < tc <= now w + slept ws ->
  let out := performCallAndReadResponse (with_context Do) ForAttempt AddAuthHeaders
               req data w in
  fst out = Err (errors_New ("Failed call: " ++ ctx_error (Ctx req))%string)
  /\ now (snd out) = now w + slept ws
  /\ sleeps_of (added w (snd out)) = ws
  /\ List.length (requests_sent (added w (snd out))) = S (List.length fails).
Proof.
  intros Hread Hauth Hd Hans Hall Hne Hlen ws Ht out. subst ws out.
  assert (HC0 : Ctx (prepared AddAuthHeaders req) = Ctx req).
  { unfold prepared. rewrite Hauth. reflexivity. }
  destruct (performCall_fails (with_context Do) ForAttempt AddAuthHeaders T req data w
              fails Hread)
    as (req' & b' & res' & evs & Heq & HC & _ & _ & Hq & Hs & _).
  { rewrite HC0. apply (answered_with_context Do ForAttempt (Ctx req) tc); auto. lia. }
  { unfold retry_budget. lia. }
  rewrite Heq. clear Heq.
  destruct (retry_budget - List.length fails)%nat as [|m] eqn:E;
    [unfold retry_budget in E; lia|].
  rewrite (attempts_error (with_context Do) ForAttempt m req' _ b' res' _
             (ctx_error (Ctx req))).
  - cbn [after_loop fst snd now].
    rewrite (added_app w ((prelude req ++ evs) ++ [EvDo req'])).
    + destruct (prelude_obs req) as (Pq & Ps & _).
      autorewrite with project. rewrite Pq, Ps, Hq, Hs. cbn [app]. rewrite app_nil_r.
      rewrite length_app, requests_sent_shape_length. cbn [List.length].
      repeat split; try reflexivity. cbn. lia.
    + cbn [trace]. rewrite <- !app_assoc. reflexivity.
  - cbn [sends now]. unfold with_context, ctx_Done. rewrite HC, HC0, Hd.
    replace (tc <=? _) with true by (symmetry; apply Z.leb_le; lia). reflexivity.
Qed.

End Claims.


Section Endpoints.
Variable Do : nat -> Z -> Request -> SendResult.
Variable ForAttempt : nat -> Backoff -> Duration.
Variable AddAuthHeaders : Request -> Request.
Variables Asset Finding : Type.
Variable marshal_asset_search : string -> result bytes.
Variable marshal_findings_search : string -> result bytes.
Variable decode_assets : Reader -> result (list Asset).
Variable decode_findings : Reader -> result (FindingsPage Finding).
Variable url_parse_error : string -> option error.
Variable c_url : string.

Local Abbreviation findings_path := "/api/v3/findings/vulnerabilities/host/search"%string.
Local Abbreviation assets_path := "/api/v3/assets/search"%string.

(** One page fetched at the first attempt. *)
Lemma fetch_page req w rs p body :
  Body req = Some (NewBuffer body) ->
  (forall t q, Do (sends w) t q = SendOk rs) ->
  serves decode_findings rs p ->
  exists evs,
    performCallAndReadResponse Do ForAttempt AddAuthHeaders req (Some decode_findings) w =
      (Ok (Some p),
       {| sends := S (sends w); draws := draws w; now := now w; trace := trace w ++ evs |})
    /\ bodies_read evs = [body].
Proof.
  intros HB HDo [Hst Hdec].
  destruct (performCall_success Do ForAttempt AddAuthHeaders (FindingsPage Finding) req
              (Some decode_findings) w [] rs) as (evs & Heq & _ & _ & _ & _ & _ & Hb).
  - unfold body_readable. rewrite HB. reflexivity.
  - unfold retry_budget. cbn. lia.
  - constructor.
  - exact Hst.
  - intros i o Hi t q. destruct i as [|[|i]]; cbn in Hi; try discriminate.
    inversion Hi; subst. rewrite Nat.add_0_r. apply HDo.
  - exists evs. rewrite Heq, Hdec, HB in *. cbn [List.length waits slept fold_right] .
    split; [|exact Hb]. f_equal. f_equal; lia.
Qed.

Lemma next_pages_spec pages :
  forall resps next findings w fuel ctx,
    url_parse_error (c_url ++ findings_path)%string = None ->
    chain next pages ->
    Forall2 (serves decode_findings) resps pages ->
    answers Do (sends w) (map SendOk resps) ->
    (List.length pages <= fuel)%nat ->
    exists w' evs,
      next_pages Do ForAttempt AddAuthHeaders Finding decode_findings url_parse_error
        c_url fuel ctx next findings w
      = Some (Ok (findings ++ List.concat (map Findings pages))%list, w')
      /\ sends w' = (sends w + List.length pages)%nat
      /\ trace w' = trace w ++ evs
      /\ bodies_read evs = map json_next (cursors_used next pages).
Proof.
  induction pages as [|p rest IH]; intros resps next findings w fuel ctx Hurl Hch Hsv Hans Hfuel.
  - cbn in Hch. subst next. exists w, [].
    destruct fuel; cbn; rewrite !app_nil_r, Nat.add_0_r; repeat split.
  - destruct Hch as [Hne Hch]. inversion Hsv as [|rs p' resps' rest' Hs Hsv']; subst.
    cbn [map] in Hans. apply answers_cons in Hans. destruct Hans as [H0 Hans].
    destruct fuel as [|fuel]; [cbn in Hfuel; lia|].
    cbn [next_pages]. apply String.eqb_neq in Hne. rewrite Hne.
    unfold http_NewRequest. rewrite Hurl.
    match goal with |- context [performCallAndReadResponse _ _ _ ?q _ w] =>
      destruct (fetch_page q w rs p (json_next next) eq_refl H0 Hs) as (ev1 & -> & Hb1) end.
    destruct (IH resps' (Next (Pagination_ p)) (findings ++ Findings p)
                {| sends := S (sends w); draws := draws w; now := now w;
                   trace := trace w ++ ev1 |} fuel ctx Hurl Hch Hsv' Hans)
      as (w' & evs & -> & Hsd & Htr & Hb).
    { cbn in Hfuel. lia. }
    exists w', (ev1 ++ evs). cbn [sends trace] in *.
    rewrite <- !app_assoc. cbn [map List.concat List.length cursors_used].
    repeat split.
    + lia.
    + rewrite Htr, <- app_assoc. reflexivity.
    + rewrite bodies_read_app, Hb1, Hb. reflexivity.
Qed.

Lemma chain_of_pages (init : list (FindingsPage Finding)) last :
  Forall (fun p => Next (Pagination_ p) <> EmptyString) init ->
  Next (Pagination_ last) = EmptyString ->
  exists p0 rest,
    init ++ [last] = p0 :: rest
    /\ chain (Next (Pagination_ p0)) rest
    /\ cursors_used (Next (Pagination_ p0)) rest = map (fun p => Next (Pagination_ p)) init.
Proof.
  intros Hall Hlast. induction Hall as [|p init Hp Hall IH].
  - exists last, []. repeat split. exact Hlast.
  - destruct IH as (p0 & rest & E & Hch & Hcu).
    exists p, (p0 :: rest). cbn [app]. rewrite E. repeat split.
    + destruct init; cbn in E; inversion E; subst; [exact Hp|].
      inversion Hall; subst. assumption.
    + exact Hch.
    + cbn [cursors_used map]. rewrite Hcu.
      destruct init; cbn in E |- *; inversion E; subst; reflexivity.
Qed.

(** The text line 424 builds for the cursor [next]. *)
Lemma json_next_text next :
  json_next next
  = ("{" ++ String "034" "next" ++ String "034" ":" ++ String "034" next
     ++ String "034" "}")%string.
Proof. reflexivity. Qed.

(** One page fetched at the first attempt: what the transport was
    handed. *)
Lemma fetch_page_presents req w rs p body :
  Body req = Some (NewBuffer body) ->
  (forall t q, Do (sends w) t q = SendOk rs) ->
  serves decode_findings rs p ->
  (forall q, Body (AddAuthHeaders q) = Body q) ->
  exists evs,
    performCallAndReadResponse Do ForAttempt AddAuthHeaders req (Some decode_findings) w =
      (Ok (Some p),
       {| sends := S (sends w); draws := draws w; now := now w; trace := trace w ++ evs |})
    /\ bodies_read evs = [body]
    /\ bodies_presented evs = [body].
Proof.
  intros HB HDo Hs Hkeep.
  assert (Hread : body_readable req) by (unfold body_readable; rewrite HB; reflexivity).
  destruct (fetch_page req w rs p body HB HDo Hs) as (evs & Heq & Hb).
  exists evs. split; [exact Heq|]. split; [exact Hb|].
  destruct (performCall_success Do ForAttempt AddAuthHeaders (FindingsPage Finding) req
              (Some decode_findings) w [] rs) as (evs' & Heq' & Hlen & _).
  - exact Hread.
  - unfold retry_budget. cbn. lia.
  - constructor.
  - apply Hs.
  - intros i o Hi t q. destruct i as [|[|i]]; cbn in Hi; try discriminate.
    inversion Hi; subst. rewrite Nat.add_0_r. apply HDo.
  - rewrite Heq in Heq'. apply (f_equal (fun x => trace (snd x))) in Heq'.
    cbn [snd trace] in Heq'. apply app_inv_head in Heq'. subst evs'.
    destruct (performCall_shape Do ForAttempt AddAuthHeaders (FindingsPage Finding) req
                (Some decode_findings) w Hread) as (post & Hadd & _).
    rewrite Heq in Hadd. cbn [snd] in Hadd.
    rewrite (added_app _ evs) in Hadd by reflexivity. subst evs.
    destruct (prelude_obs req) as (Pq & _).
    unfold bodies_presented. rewrite requests_sent_app, Pq in Hlen |- *. cbn [app] in *.
    change (requests_sent (EvDo (prepared AddAuthHeaders req) :: post))
      with (prepared AddAuthHeaders req :: requests_sent post) in *.
    cbn [List.length] in Hlen.
    assert (Hnil : requests_sent post = []).
    { apply length_zero_iff_nil. lia. }
    rewrite Hnil. cbn [map]. f_equal.
    unfold prepared, presented_body. rewrite Hkeep. cbn [Body set_Body].
    rewrite HB. reflexivity.
Qed.

Lemma next_pages_presents pages :
  forall resps next findings w fuel ctx,
    url_parse_error (c_url ++ findings_path)%string = None ->
    (forall q, Body (AddAuthHeaders q) = Body q) ->
    chain next pages ->
    Forall2 (serves decode_findings) resps pages ->
    answers Do (sends w) (map SendOk resps) ->
    (List.length pages <= fuel)%nat ->
    exists w' evs,
      next_pages Do ForAttempt AddAuthHeaders Finding decode_findings url_parse_error
        c_url fuel ctx next findings w
      = Some (Ok (findings ++ List.concat (map Findings pages))%list, w')
      /\ trace w' = trace w ++ evs
      /\ bodies_presented evs = map json_next (cursors_used next pages).
Proof.
  induction pages as [|p rest IH];
    intros resps next findings w fuel ctx Hurl Hkeep Hch Hsv Hans Hfuel.
  - cbn in Hch. subst next. exists w, [].
    destruct fuel; cbn; rewrite !app_nil_r; repeat split.
  - destruct Hch as [Hne Hch]. inversion Hsv as [|rs p' resps' rest' Hs Hsv']; subst.
    cbn [map] in Hans. apply answers_cons in Hans. destruct Hans as [H0 Hans].
    destruct fuel as [|fuel]; [cbn in Hfuel; lia|].
    cbn [next_pages]. apply String.eqb_neq in Hne. rewrite Hne.
    unfold http_NewRequest. rewrite Hurl.
    match goal with |- context [performCallAndReadResponse _ _ _ ?q _ w] =>
      destruct (fetch_page_presents q w rs p (json_next next) eq_refl H0 Hs Hkeep)
        as (ev1 & -> & _ & Hp1) end.
    destruct (IH resps' (Next (Pagination_ p)) (findings ++ Findings p)
                {| sends := S (sends w); draws := draws w; now := now w;
                   trace := trace w ++ ev1 |} fuel ctx Hurl Hkeep Hch Hsv' Hans)
      as (w' & evs & -> & Htr & Hp).
    { cbn in Hfuel. lia. }
    exists w', (ev1 ++ evs). cbn [sends trace] in *.
    rewrite <- !app_assoc. cbn [map List.concat List.length cursors_used].
    repeat split.
    + rewrite Htr, <- app_assoc. reflexivity.
    + unfold bodies_presented in *. rewrite requests_sent_app, map_app, Hp1, Hp.
      reflexivity.
Qed.

(** C8.  When the server returns a sequence of successful pages of
    which every page but the last carries a cursor that is not empty
    and the last an empty one, [GetFindingsByAssetName] returns the
    findings of the pages, concatenated in the order of arrival, after
    exactly one page fetch per page; the first fetch carries the
    search payload and each later one exactly the text
    [{"next":"<cursor>"}] with the cursor of the page before, both as
    the body read from the request and (the auth provider leaving the
    body alone) as the body handed to the transport. *)
Theorem C8_pages_are_concatenated_until_the_empty_cursor
    ctx name w jsonBody resps (init : list (FindingsPage Finding)) last fuel :
  marshal_findings_search name = Ok jsonBody ->
  url_parse_error (c_url ++ findings_path)%string = None ->
  Forall2 (serves decode_findings) resps (init ++ [last]) ->
  Forall (fun p => Next (Pagination_ p) <> EmptyString) init ->
  Next (Pagination_ last) = EmptyString ->
  answers Do (sends w) (map SendOk resps) ->
  (List.length init <= fuel)%nat ->
  let follow_up := fun cursor : string =>
        ("{" ++ String "034" "next" ++ String "034" ":" ++ String "034" cursor
         ++ String "034" "}")%string in
  exists w',
    GetFindingsByAssetName Do ForAttempt AddAuthHeaders Finding marshal_findings_search
      decode_findings url_parse_error c_url fuel ctx name w
    = Some (Ok (List.concat (map Findings (init ++ [last])%list)), w')
    /\ sends w' = (sends w + List.length (init ++ [last]))%nat
    /\ bodies_read (added w w') =
         jsonBody :: map (fun p => follow_up (Next (Pagination_ p))) init
    /\ ((forall q, Body (AddAuthHeaders q) = Body q) ->
        bodies_presented (added w w') =
          jsonBody :: map (fun p => follow_up (Next (Pagination_ p))) init).
Proof.
  intros Hm Hurl Hsv Hall Hlast Hans Hfuel follow_up. subst follow_up.
  destruct (chain_of_pages init last Hall Hlast) as (p0 & rest & E & Hch & Hcu).
  assert (Hlen : List.length rest = List.length init).
  { apply (f_equal (@List.length _)) in E. rewrite length_app in E. cbn in E. lia. }
  assert (Htext : map json_next (map (fun p => Next (Pagination_ p)) init)
                  = map (fun p => ("{" ++ String "034" "next" ++ String "034" ":"
                                   ++ String "034" (Next (Pagination_ p))
                                   ++ String "034" "}")%string) init).
  { rewrite map_map. apply map_ext. intros p. apply json_next_text. }
  rewrite E in *. inversion Hsv as [|rs p' resps' rest' Hs Hsv']; subst.
  cbn [map] in Hans. apply answers_cons in Hans. destruct Hans as [H0 Hans].
  unfold GetFindingsByAssetName. rewrite Hm. unfold http_NewRequest. rewrite Hurl.
  match goal with |- context [performCallAndReadResponse _ _ _ ?q _ w] =>
    pose proof (fetch_page_presents q w rs p0 jsonBody eq_refl H0 Hs) as Hpres;
    destruct (fetch_page q w rs p0 jsonBody eq_refl H0 Hs) as (ev1 & Heq1 & Hb1) end.
  rewrite Heq1.
  pose proof (next_pages_presents rest resps' (Next (Pagination_ p0)) ([] ++ Findings p0)
                {| sends := S (sends w); draws := draws w; now := now w;
                   trace := trace w ++ ev1 |} fuel ctx Hurl) as Hnext.
  destruct (next_pages_spec rest resps' (Next (Pagination_ p0)) ([] ++ Findings p0)
              {| sends := S (sends w); draws := draws w; now := now w;
                 trace := trace w ++ ev1 |} fuel ctx Hurl Hch Hsv' Hans)
    as (w' & evs & Heq2 & Hsd & Htr & Hb).
  { lia. }
  rewrite Heq2.
  exists w'. cbn [sends trace app map List.concat List.length] in *.
  assert (Hadd : added w w' = ev1 ++ evs).
  { apply added_app. rewrite Htr, <- app_assoc. reflexivity. }
  split; [reflexivity|]. split; [lia|]. split.
  - rewrite Hadd, bodies_read_app, Hb1, Hb, Hcu, Htext. reflexivity.
  - intros Hkeep.
    destruct (Hpres Hkeep) as (ev1' & Heq1' & _ & Hp1).
    rewrite Heq1 in Heq1'. apply (f_equal (fun x => trace (snd x))) in Heq1'.
    cbn [snd trace] in Heq1'. apply app_inv_head in Heq1'. subst ev1'.
    destruct (Hnext Hkeep Hch Hsv' Hans) as (w2 & evs' & Heq2' & Htr' & Hp); [lia|].
    rewrite Heq2 in Heq2'. inversion Heq2'; subst w2.
    rewrite Htr in Htr'. apply app_inv_head in Htr'. subst evs'.
    rewrite Hadd. unfold bodies_presented in *.
    rewrite requests_sent_app, map_app, Hp1, Hp, Hcu, Htext. reflexivity.
Qed.

(** C10.  After a successful response, [GetAssetByName] returns an
    error when the decoded list of assets is empty, an error that
    reports the count, written in decimal between brackets after the
    name, when the list has more than one asset, and the asset, with no
    error, only when the list has exactly one. *)
Theorem C10_exactly_one_asset_or_an_error
    ctx name w jsonBody fails final assets :
  marshal_asset_search name = Ok jsonBody ->
  url_parse_error (c_url ++ assets_path)%string = None ->
  (List.length fails < 10)%nat ->
  Forall (fun rs => 300 <= StatusCode rs) fails ->
  StatusCode final < 300 ->
  answers Do (sends w) (map SendOk (fails ++ [final])) ->
  decode_assets (RespBody final) = Ok assets ->
  let out := GetAssetByName Do ForAttempt AddAuthHeaders Asset marshal_asset_search
               decode_assets url_parse_error c_url ctx name w in
  (assets = [] -> fst out = Err ("No assets matching name: " ++ name)%string)
  /\ ((1 < List.length assets)%nat ->
      fst out = Err ("More than one asset matching name: " ++ name ++ " ("
                     ++ NilEmpty.string_of_uint (Nat.to_uint (List.length assets))
                     ++ ")")%string)
  /\ (forall a, assets = [a] -> fst out = Ok a).
Proof.
  intros Hm Hurl Hlen Hall Hfin Hans Hdec out. subst out.
  unfold GetAssetByName. rewrite Hm. unfold http_NewRequest. rewrite Hurl.
  match goal with |- context [performCallAndReadResponse _ _ _ ?q _ w] =>
    destruct (performCall_success Do ForAttempt AddAuthHeaders (list Asset) q
                (Some decode_assets) w fails final) as (evs & -> & _) end;
    try assumption.
  { reflexivity. }
  rewrite Hdec. repeat split.
  - intros ->. reflexivity.
  - intros H. destruct assets as [|a [|a' l]]; cbn in H; try lia. reflexivity.
  - intros a ->. reflexivity.
Qed.

End Endpoints.

(** ** Further properties of the executor and of the endpoints *)

Lemma request_sequence_drained req k :
  request_sequence (drained req) k = repeat (drained req) k.
Proof. destruct k; cbn; [reflexivity|]. rewrite drained_idem. reflexivity. Qed.

Lemma request_sequence_length req k : List.length (request_sequence req k) = k.
Proof. destruct k; cbn; [reflexivity|]. rewrite repeat_length. reflexivity. Qed.

Section Invariants.
Variable Do : nat -> Z -> Request -> SendResult.
Variable ForAttempt : nat -> Backoff -> Duration.
Variable AddAuthHeaders : Request -> Request.

(** What the loop has done when it is left, whatever the transport
    answers: [m] attempts were answered with a status of 300 or more,
    each was closed once and followed by one sleep, and the loop ends
    on one more send (a transport failure or a success) or on none
    (the budget is spent). *)
Lemma attempts_inv n :
  forall req bs b res w,
    exists evs m,
      trace (exit_world (attempts Do ForAttempt n req bs b res w)) = trace w ++ evs
      /\ List.length (sleeps_of evs) = m
      /\ closes_of evs = seq (sends w) m
      /\ auth_calls evs = [] /\ bodies_read evs = []
      /\ match attempts Do ForAttempt n req bs b res w with
         | LoopReturn e w' =>
             (exists e', e = errors_New ("Failed call: " ++ e')%string)
             /\ (m < n)%nat
             /\ requests_sent evs = request_sequence req (S m)
             /\ sends w' = (sends w + S m)%nat
         | LoopBreak id rs w' =>
             id = (sends w + m)%nat
             /\ (m < n)%nat
             /\ requests_sent evs = request_sequence req (S m)
             /\ sends w' = (sends w + S m)%nat
         | LoopExhausted r w' =>
             m = n
             /\ requests_sent evs = request_sequence req n
             /\ sends w' = (sends w + n)%nat
             /\ match n with
                | O => r = res
                | S k => exists rs, r = Some ((sends w + k)%nat, rs)
                end
         end.
Proof.
  induction n as [|n IH]; intros req bs b res w.
  - exists [], 0%nat. cbn. rewrite app_nil_r, Nat.add_0_r. repeat split.
  - cbn [attempts]. unfold httpClient_Do.
    destruct (Do (sends w) (now w) req) as [rs|e].
    + destruct (300 <=? StatusCode rs) eqn:Hst.
      * destruct (failed_attempt_spec ForAttempt (drained req) bs (sends w) rs b
                    {| sends := S (sends w); draws := draws w; now := now w;
                       trace := trace w ++ [EvDo req] |})
          as (ev1 & rs1 & -> & Hq1 & Hs1 & Hc1 & Ha1 & Hb1 & _).
        cbn [sends draws now trace].
        match goal with |- context [attempts _ _ n ?q ?s ?b0 ?r ?w0] =>
          destruct (IH q s b0 r w0) as (evs & m & Ht & Hs & Hc & Ha & Hb & Hx);
          destruct (attempts Do ForAttempt n q s b0 r w0) as [e w'|id rs' w'|r' w']
        end; cbn [exit_world sends trace] in *;
          exists ([EvDo req] ++ ev1 ++ evs), (S m);
          (split; [rewrite Ht, <- !app_assoc; reflexivity|]);
          (split; [rewrite !sleeps_of_app, Hs1, !length_app, Hs; reflexivity|]);
          (split; [rewrite !closes_of_app, Hc1, Hc; reflexivity|]);
          (split; [rewrite !auth_calls_app, Ha1, Ha; reflexivity|]);
          (split; [rewrite !bodies_read_app, Hb1, Hb; reflexivity|]);
          rewrite !requests_sent_app, Hq1; cbn [app requests_sent flat_map].
        -- destruct Hx as (He & Hm & Hq & Hsd). rewrite Hq, request_sequence_drained.
           repeat split; auto; try lia.
        -- destruct Hx as (He & Hm & Hq & Hsd). rewrite Hq, request_sequence_drained.
           repeat split; auto; try lia.
        -- destruct Hx as (He & Hq & Hsd & Hr). rewrite Hq, request_sequence_drained.
           subst m. repeat split; auto; try lia.
           destruct n as [|k].
           ++ subst r'. exists rs1. rewrite Nat.add_0_r. reflexivity.
           ++ destruct Hr as [rs2 ->]. exists rs2. do 2 f_equal. lia.
      * exists [EvDo req], 0%nat. cbn. rewrite Nat.add_0_r. repeat split; try lia.
    + exists [EvDo req], 0%nat. cbn. repeat split; try lia. eexists. reflexivity.
Qed.
End Invariants.

Lemma wait_of_other rs d :
  StatusCode rs <> 429 -> wait_of rs d = d.
Proof.
  intros H. unfold wait_of, wait_after, StatusTooManyRequests.
  apply Z.eqb_neq in H. rewrite H. reflexivity.
Qed.

Section ExecutorExtras.
Variable Do : nat -> Z -> Request -> SendResult.
Variable ForAttempt : nat -> Backoff -> Duration.
Variable AddAuthHeaders : Request -> Request.

(** A call whose request body can be read: the loop it runs and what
    the call adds to the trace, whatever the transport answers. *)
Lemma performCall_inv (T : Type) req (data : option (Reader -> result T)) w :
  body_readable req ->
  exists x evs ev2,
    performCallAndReadResponse Do ForAttempt AddAuthHeaders req data w = after_loop data x
    /\ x = attempts Do ForAttempt retry_budget (prepared AddAuthHeaders req)
             (presented_body req) initial_backoff None
             {| sends := sends w; draws := draws w; now := now w;
                trace := trace w ++ prelude req |}
    /\ trace (exit_world x) = (trace w ++ prelude req) ++ evs
    /\ trace (snd (after_loop data x)) = trace w ++ prelude req ++ evs ++ ev2
    /\ added w (snd (after_loop data x)) = prelude req ++ evs ++ ev2
    /\ sends (snd (after_loop data x)) = sends (exit_world x)
    /\ requests_sent ev2 = [] /\ sleeps_of ev2 = [] /\ auth_calls ev2 = []
    /\ bodies_read ev2 = []
    /\ closes_of ev2 =
         match x with
         | LoopReturn _ _ => []
         | LoopBreak id _ _ => [id]
         | LoopExhausted (Some (id, _)) _ => [id]
         | LoopExhausted None _ => []
         end.
Proof.
  intros Hread.
  rewrite (performCall_unfold Do ForAttempt AddAuthHeaders T req data w Hread).
  eexists. 
  match goal with |- context [after_loop data ?x] =>
    destruct (after_loop_spec T data x) as (ev2 & Hw & Hq2 & Hs2 & Ha2 & Hb2 & _ & Hc2);
    destruct (attempts_inv Do ForAttempt retry_budget (prepared AddAuthHeaders req)
                (presented_body req) initial_backoff None
                {| sends := sends w; draws := draws w; now := now w;
                   trace := trace w ++ prelude req |}) as (evs & m & Ht & _)
  end.
  exists evs, ev2. cbn [trace] in Ht.
  split; [reflexivity|]. split; [reflexivity|]. split; [exact Ht|].
  split; [rewrite Hw; cbn [trace]; rewrite Ht, <- !app_assoc; reflexivity|].
  split; [apply added_app; rewrite Hw; cbn [trace]; rewrite Ht, <- !app_assoc; reflexivity|].
  split; [rewrite Hw; reflexivity|].
  repeat split; assumption.
Qed.

(** X2.  Whatever the transport answers, a call whose request body can
    be read sends at least once and at most ten times, and every send
    but the first comes after a sleep: the sleeps are as many as the
    sends, or one fewer. *)
Theorem attempts_are_bounded_for_every_transport
    (T : Type) req (data : option (Reader -> result T)) w :
  body_readable req ->
  let out := performCallAndReadResponse Do ForAttempt AddAuthHeaders req data w in
  let n := List.length (requests_sent (added w (snd out))) in
  let k := List.length (sleeps_of (added w (snd out))) in
  (1 <= n <= 10)%nat /\ (k <= n <= k + 1)%nat /\ sends (snd out) = (sends w + n)%nat.
Proof.
  intros Hread out n k. subst out n k.
  destruct (performCall_inv T req data w Hread)
    as (x & evs & ev2 & -> & Hx & Ht & _ & -> & Hsd & Hq2 & Hs2 & _).
  rewrite Hsd. clear Hsd.
  destruct (attempts_inv Do ForAttempt retry_budget (prepared AddAuthHeaders req)
              (presented_body req) initial_backoff None
              {| sends := sends w; draws := draws w; now := now w;
                 trace := trace w ++ prelude req |}) as (evs' & m & Ht' & Hs & _ & _ & _ & Hm).
  rewrite <- Hx in Ht', Hm. rewrite Ht in Ht'. apply app_inv_head in Ht'. subst evs'.
  destruct (prelude_obs req) as (Pq & Ps & _).
  rewrite !requests_sent_app, !sleeps_of_app, Pq, Ps, Hq2, Hs2, !app_nil_r. cbn [app].
  rewrite Hs. unfold retry_budget in *. cbn [sends] in Hm.
  destruct x as [e w'|id rs w'|r w']; cbn [exit_world].
  - destruct Hm as (_ & Hlt & -> & ->). rewrite request_sequence_length. lia.
  - destruct Hm as (_ & Hlt & -> & ->). rewrite request_sequence_length. lia.
  - destruct Hm as (-> & -> & -> & _). rewrite request_sequence_length. lia.
Qed.

(** X3.  Whatever the transport answers, no response body is left open,
    and none is closed twice unless the retry budget is spent.  When a
    send fails in the transport, the responses of the sends before it
    have each been closed once; when the budget is spent, all ten have
    been closed and the tenth once more; otherwise (a success, or a
    body that does not decode) every response has been closed once. *)
Theorem bodies_closed_for_every_transport
    (T : Type) req (data : option (Reader -> result T)) w :
  body_readable req ->
  let out := performCallAndReadResponse Do ForAttempt AddAuthHeaders req data w in
  let n := List.length (requests_sent (added w (snd out))) in
  let closes := closes_of (added w (snd out)) in
  (exists e, fst out = Err (errors_New ("Failed call: " ++ e)%string)
             /\ closes = seq (sends w) (n - 1))
  \/ (fst out = Err (errors_New "Retry limit exceeded")
      /\ n = 10%nat /\ closes = seq (sends w) 10 ++ [(sends w + 9)%nat])
  \/ (((exists v, fst out = Ok v)
       \/ (exists e, fst out = Err (errors_New ("Failed to read the response: " ++ e)%string)))
      /\ closes = seq (sends w) n).
Proof.
  intros Hread out n closes. subst out n closes.
  destruct (performCall_inv T req data w Hread)
    as (x & evs & ev2 & -> & Hx & Ht & _ & -> & _ & Hq2 & _ & _ & _ & Hc2).
  destruct (attempts_inv Do ForAttempt retry_budget (prepared AddAuthHeaders req)
              (presented_body req) initial_backoff None
              {| sends := sends w; draws := draws w; now := now w;
                 trace := trace w ++ prelude req |}) as (evs' & m & Ht' & _ & Hc & _ & _ & Hm).
  rewrite <- Hx in Ht', Hm. rewrite Ht in Ht'. apply app_inv_head in Ht'. subst evs'.
  destruct (prelude_obs req) as (Pq & _ & Pc & _).
  rewrite !requests_sent_app, !closes_of_app, Pq, Pc, Hq2, Hc2, Hc, !app_nil_r. cbn [app].
  unfold retry_budget in *. cbn [sends] in Hm, Hc |- *.
  destruct x as [e w'|id rs w'|r w']; cbn [after_loop fst].
  - left. destruct Hm as ((e' & ->) & _ & -> & _). exists e'.
    rewrite request_sequence_length, app_nil_r. split; [reflexivity|]. f_equal. lia.
  - right. right. destruct Hm as (-> & _ & -> & _).
    rewrite request_sequence_length, seq_S. split; [|reflexivity].
    destruct data as [decode|]; [destruct (decode (RespBody rs))|]; cbn [fst];
      [left|right|left]; eexists; reflexivity.
  - right. left. destruct Hm as (-> & -> & _ & (rs & ->)).
    rewrite request_sequence_length. repeat split.
Qed.

(** X5.  A request body that cannot be read ends the call before
    anything else happens: the auth provider is not called and nothing
    is sent. *)
Theorem unreadable_body_sends_nothing
    (T : Type) req (data : option (Reader -> result T)) w r e :
  Body req = Some r ->
  read_err r = Some e ->
  let out := performCallAndReadResponse Do ForAttempt AddAuthHeaders req data w in
  fst out = Err (errors_New ("Failed to read request body: " ++ e)%string)
  /\ requests_sent (added w (snd out)) = []
  /\ auth_calls (added w (snd out)) = []
  /\ sends (snd out) = sends w.
Proof.
  intros HB Hr out. subst out.
  unfold performCallAndReadResponse, buffer_request_body, ReadAll. rewrite HB, Hr.
  cbn [fst snd]. rewrite (added_app w [EvReadRequestBody (unread r)]) by reflexivity.
  repeat split.
Qed.

(** X4.  The [retry-after] header counts for a status of 429 only.
    After an attempt answered with any other status of 300 or more, the
    wait is the duration the backoff generator computed for that
    attempt, whatever headers the response carries; and the generator
    has been advanced once for every earlier failed attempt, those
    whose wait came from a [retry-after] header included. *)
Theorem retry_after_is_ignored_unless_429
    (T : Type) req (data : option (Reader -> result T)) w fails i rs :
  body_readable req ->
  (List.length fails <= 10)%nat ->
  Forall (fun r => 300 <= StatusCode r) fails ->
  answers Do (sends w) (map SendOk fails) ->
  nth_error fails i = Some rs ->
  StatusCode rs <> 429 ->
  let out := performCallAndReadResponse Do ForAttempt AddAuthHeaders req data w in
  nth_error (sleeps_of (added w (snd out))) i
  = Some (ForAttempt (draws w + i)%nat (Nat.iter i advance initial_backoff)).
Proof.
  intros Hread Hlen Hall Hans Hi Hst out. subst out.
  destruct (performCall_sleeps Do ForAttempt AddAuthHeaders T req data w fails Hread Hlen)
    as (more & ->).
  { apply answers_answered; assumption. }
  assert (Hlt : (i < List.length (waits ForAttempt fails (draws w) initial_backoff))%nat).
  { rewrite waits_length. apply nth_error_Some. rewrite Hi. discriminate. }
  rewrite (nth_error_app1 _ _ Hlt), (nth_error_waits ForAttempt fails i rs _ _ Hi),
    (wait_of_other rs _ Hst).
  reflexivity.
Qed.

End ExecutorExtras.

Lemma added_refl w : added w w = [].
Proof. apply added_app. rewrite app_nil_r. reflexivity. Qed.

Lemma Forall_request_sequence (P : Request -> Prop) req k :
  P req -> P (drained req) -> Forall P (request_sequence req k).
Proof.
  intros H Hd. destruct k; cbn; constructor; [exact H|].
  apply Forall_forall. intros q Hq. apply repeat_spec in Hq. subst q. exact Hd.
Qed.

Lemma targets_set_Body m u ctx q b : targets m u ctx q -> targets m u ctx (set_Body q b).
Proof. intros H. exact H. Qed.

Lemma json_headers_set_Body q b : json_headers q -> json_headers (set_Body q b).
Proof. intros H. exact H. Qed.

Section CallExtras.
Variable Do : nat -> Z -> Request -> SendResult.
Variable ForAttempt : nat -> Backoff -> Duration.
Variable AddAuthHeaders : Request -> Request.

(** Whatever the transport answers and whether or not the body can be
    read, a call only appends to the trace, and every request it hands
    to the transport has the properties that the request it was given
    has and that the auth provider and a change of body keep. *)
Lemma performCall_requests_satisfy (P : Request -> Prop) (T : Type) req
    (data : option (Reader -> result T)) w :
  (forall q b, P q -> P (set_Body q b)) ->
  (forall q, P q -> P (AddAuthHeaders q)) ->
  P req ->
  exists evs,
    trace (snd (performCallAndReadResponse Do ForAttempt AddAuthHeaders req data w))
    = trace w ++ evs
    /\ Forall P (requests_sent evs).
Proof.
  intros Hbody Hauth HP.
  assert (Hdec : body_readable req \/ exists r e, Body req = Some r /\ read_err r = Some e).
  { unfold body_readable. destruct (Body req) as [r|]; [|left; exact I].
    destruct (read_err r) as [e|] eqn:E; [right; exists r, e; auto|left; reflexivity]. }
  destruct Hdec as [Hread|(r & e & HB & Hr)].
  - destruct (performCall_inv Do ForAttempt AddAuthHeaders T req data w Hread)
      as (x & evs & ev2 & -> & Hx & Ht & Htr & _ & _ & Hq2 & _).
    destruct (attempts_inv Do ForAttempt retry_budget (prepared AddAuthHeaders req)
                (presented_body req) initial_backoff None
                {| sends := sends w; draws := draws w; now := now w;
                   trace := trace w ++ prelude req |})
      as (evs' & m & Ht' & _ & _ & _ & _ & Hm).
    rewrite <- Hx in Ht', Hm. rewrite Ht in Ht'. apply app_inv_head in Ht'. subst evs'.
    exists (prelude req ++ evs ++ ev2). split; [exact Htr|].
    destruct (prelude_obs req) as (Pq & _).
      rewrite !requests_sent_app, Pq, Hq2, app_nil_r. cbn [app].
      assert (HPp : P (prepared AddAuthHeaders req)) by (apply Hauth, Hbody, HP).
      assert (HPd : P (drained (prepared AddAuthHeaders req))) by (apply Hbody, HPp).
    destruct x as [e w'|id rs w'|r w'].
    + destruct Hm as (_ & _ & -> & _). apply Forall_request_sequence; assumption.
    + destruct Hm as (_ & _ & -> & _). apply Forall_request_sequence; assumption.
    + destruct Hm as (_ & -> & _). apply Forall_request_sequence; assumption.
  - exists [EvReadRequestBody (unread r)].
    unfold performCallAndReadResponse, buffer_request_body, ReadAll. rewrite HB, Hr.
    split; [reflexivity|constructor].
Qed.

(** Ten failed attempts: the call gives up. *)
Lemma performCall_retry_limit (T : Type) req (data : option (Reader -> result T)) w outs :
  body_readable req ->
  List.length outs = 10%nat ->
  Forall (fun rs => 300 <= StatusCode rs) outs ->
  answers Do (sends w) (map SendOk outs) ->
  fst (performCallAndReadResponse Do ForAttempt AddAuthHeaders req data w)
  = Err (errors_New "Retry limit exceeded").
Proof.
  intros Hread Hlen Hall Hans.
  destruct (performCall_fails Do ForAttempt AddAuthHeaders T req data w outs Hread)
    as (req' & b' & res' & evs & -> & _).
  { apply answers_answered; assumption. }
  { unfold retry_budget. lia. }
  replace (retry_budget - List.length outs)%nat with 0%nat by (unfold retry_budget; lia).
  reflexivity.
Qed.

(** A transport failure on the first attempt. *)
Lemma performCall_first_send_fails (T : Type) req (data : option (Reader -> result T)) w e :
  body_readable req ->
  (forall t q, Do (sends w) t q = SendErr e) ->
  exists evs,
    performCallAndReadResponse Do ForAttempt AddAuthHeaders req data w
    = (Err (errors_New ("Failed call: " ++ e)%string),
       {| sends := S (sends w); draws := draws w; now := now w; trace := trace w ++ evs |}).
Proof.
  intros Hread HDo.
  rewrite (performCall_unfold Do ForAttempt AddAuthHeaders T req data w Hread).
  unfold retry_budget. rewrite (attempts_error Do ForAttempt 9 _ _ _ _ _ e) by apply HDo.
  cbn [after_loop sends draws now trace]. eexists. rewrite <- app_assoc. reflexivity.
Qed.

End CallExtras.

Section Authentication.
Variable Do : nat -> Z -> Request -> SendResult.
Variable ForAttempt : nat -> Backoff -> Duration.
Variable AddAuthHeaders : Request -> Request.

(** The requests of a whole call, whatever the transport answers: the
    prepared request, then, for every retry, what the send before left
    of it. *)
Lemma performCall_request_sequence (T : Type) req (data : option (Reader -> result T)) w :
  body_readable req ->
  exists n,
    requests_sent
      (added w (snd (performCallAndReadResponse Do ForAttempt AddAuthHeaders req data w)))
    = request_sequence (prepared AddAuthHeaders req) (S n).
Proof.
  intros Hread.
  destruct (performCall_inv Do ForAttempt AddAuthHeaders T req data w Hread)
    as (x & evs & ev2 & -> & Hx & Ht & _ & -> & _ & Hq2 & _).
  destruct (attempts_inv Do ForAttempt retry_budget (prepared AddAuthHeaders req)
              (presented_body req) initial_backoff None
              {| sends := sends w; draws := draws w; now := now w;
                 trace := trace w ++ prelude req |})
    as (evs' & m & Ht' & _ & _ & _ & _ & Hm).
  rewrite <- Hx in Ht', Hm. rewrite Ht in Ht'. apply app_inv_head in Ht'. subst evs'.
  destruct (prelude_obs req) as (Pq & _).
  rewrite !requests_sent_app, Pq, Hq2, app_nil_r. cbn [app].
  destruct x as [e w'|id rs w'|r w'].
  - destruct Hm as (_ & _ & -> & _). exists m. reflexivity.
  - destruct Hm as (_ & _ & -> & _). exists m. reflexivity.
  - destruct Hm as (_ & -> & _). exists 9%nat. reflexivity.
Qed.

(** C2, amended.  [AddAuthHeaders] is invoked exactly once per call:
    after the request body has been buffered and immediately before the
    first send.  The retries do not invoke it: every later send is
    handed the very request of the first send, as that send left it,
    with the method, the URL, the context and the headers the auth
    provider left on it. *)
Theorem C2_auth_headers_added_once_before_first_send
    (T : Type) req (data : option (Reader -> result T)) w :
  body_readable req ->
  let out := performCallAndReadResponse Do ForAttempt AddAuthHeaders req data w in
  let first := AddAuthHeaders (set_Body req (Some (NewBuffer (presented_body req)))) in
  exists pre post,
    added w (snd out) = pre ++ EvAddAuthHeaders :: EvDo first :: post
    /\ first = prepared AddAuthHeaders req
    /\ requests_sent pre = [] /\ auth_calls pre = [] /\ auth_calls post = []
    /\ Forall (fun q => q = drained first
                        /\ ReqHeader q = ReqHeader first
                        /\ Method q = Method first /\ URL q = URL first
                        /\ Ctx q = Ctx first)
         (requests_sent post).
Proof.
  intros Hread out first. subst out first.
  change (AddAuthHeaders (set_Body req (Some (NewBuffer (presented_body req)))))
    with (prepared AddAuthHeaders req).
  destruct (performCall_request_sequence T req data w Hread) as (n & Hseq).
  destruct (performCall_shape Do ForAttempt AddAuthHeaders T req data w Hread)
    as (post & Hadd & Ha & _).
  rewrite Hadd in Hseq |- *.
  assert (Hpost : requests_sent post = repeat (drained (prepared AddAuthHeaders req)) n).
  { destruct (prelude_obs req) as (Pq & _).
    rewrite requests_sent_app, Pq in Hseq. cbn [app] in Hseq.
    change (requests_sent (EvDo (prepared AddAuthHeaders req) :: post))
      with (prepared AddAuthHeaders req :: requests_sent post) in Hseq.
    cbn [request_sequence] in Hseq. inversion Hseq. reflexivity. }
  assert (HF : Forall (fun q => q = drained (prepared AddAuthHeaders req)
                                /\ ReqHeader q = ReqHeader (prepared AddAuthHeaders req)
                                /\ Method q = Method (prepared AddAuthHeaders req)
                                /\ URL q = URL (prepared AddAuthHeaders req)
                                /\ Ctx q = Ctx (prepared AddAuthHeaders req))
                      (requests_sent post)).
  { rewrite Hpost. apply Forall_forall. intros q Hq. apply repeat_spec in Hq. subst q.
    repeat split. }
  unfold prelude. destruct (Body req) as [r|].
  - exists [EvReadRequestBody (unread r)], post. repeat split; assumption.
  - exists [], post. repeat split; assumption.
Qed.

End Authentication.

Section ScanEndpointsExtras.
Variable Do : nat -> Z -> Request -> SendResult.
Variable ForAttempt : nat -> Backoff -> Duration.
Variable AddAuthHeaders : Request -> Request.
Variable url_parse_error : string -> option error.
Variable c_url : string.
Variables ScanTemplate PersistedScan Scan Plugin PluginOutputResponse : Type.
Variable zero_PersistedScan : PersistedScan.
Variable zero_Plugin : Plugin.
Variable zero_PluginOutputResponse : PluginOutputResponse.
Variable marshal_scan : Scan -> result bytes.
Variable decode_templates : Reader -> result (list (option ScanTemplate)).
Variable decode_created : Reader -> result PersistedScan.
Variable decode_scans : Reader -> result (list (option PersistedScan)).
Variable decode_scan_detail : Reader -> result (option ScanDetail.t).
Variable decode_plugin : Reader -> result Plugin.
Variable decode_plugin_output : Reader -> result PluginOutputResponse.
Variable decode_policy : Reader -> result Policy.t.
Variable add_query : string -> string -> string -> string.

(** The requests of a call made for a request with no body, built for
    the method [m] and the URL [u] and put under the context [ctx]. *)
Lemma bodyless_call_targets (T : Type) (data : option (Reader -> result T)) m u ctx w :
  keeps_target AddAuthHeaders ->
  Forall (targets m u ctx)
    (requests_sent
       (added w
          (snd (performCallAndReadResponse Do ForAttempt AddAuthHeaders
                  (WithContext
                     {| Method := m; URL := u; ReqHeader := []; Body := None;
                        Ctx := Background |} ctx) data w)))).
Proof.
  intros Hk.
  match goal with |- context [performCallAndReadResponse _ _ _ ?q data w] =>
    destruct (performCall_requests_satisfy Do ForAttempt AddAuthHeaders (targets m u ctx)
                T q data w) as (evs & Ht & HF) end.
  - intros q b H. exact H.
  - intros q (H1 & H2 & H3). destruct (Hk q) as (K1 & K2 & K3).
    unfold targets. rewrite K1, K2, K3. auto.
  - repeat split.
  - rewrite (added_app _ evs _ Ht). exact HF.
Qed.

(** X6.  Whatever the transport answers, every request that
    [LaunchScanContext], [StopScanContext] and [DeleteScanContext]
    hand to it, retries included, is a POST to [/scans/<id>/launch], a
    POST to [/scans/<id>/stop] and a DELETE of [/scans/<id>] under the
    base URL, made under the caller's context (the auth provider
    leaving method, URL and context alone).  When the URL does not
    parse, nothing is sent. *)
Theorem scan_control_requests_hit_their_target ctx scanID w :
  keeps_target AddAuthHeaders ->
  Forall (targets MethodPost (c_url ++ "/scans/" ++ FormatInt scanID ++ "/launch")%string ctx)
    (requests_sent
       (added w (snd (LaunchScanContext Do ForAttempt AddAuthHeaders url_parse_error c_url
                        ctx scanID w))))
  /\ Forall (targets MethodPost (c_url ++ "/scans/" ++ FormatInt scanID ++ "/stop")%string ctx)
       (requests_sent
          (added w (snd (StopScanContext Do ForAttempt AddAuthHeaders url_parse_error c_url
                           ctx scanID w))))
  /\ Forall (targets MethodDelete (c_url ++ "/scans/" ++ FormatInt scanID)%string ctx)
       (requests_sent
          (added w (snd (DeleteScanContext Do ForAttempt AddAuthHeaders url_parse_error c_url
                           ctx scanID w)))).
Proof.
  intros Hk.
  unfold LaunchScanContext, StopScanContext, DeleteScanContext, http_NewRequest.
  repeat split.
  all: match goal with |- context [url_parse_error ?u] =>
         destruct (url_parse_error u) as [e|]
       end; cbn [snd]; [rewrite added_refl; constructor|].
  all: match goal with |- context [performCallAndReadResponse _ _ _ ?q ?d ?w0] =>
         pose proof (bodyless_call_targets unit d (Method q) (URL q) ctx w0 Hk) as H;
         cbn [WithContext Method URL ReqHeader Body Ctx] in H |- *;
         destruct (performCallAndReadResponse Do ForAttempt AddAuthHeaders q d w0) as [r w']
       end; exact H.
Qed.


(** X8.  The endpoints do not report a failed call alike.  After ten
    attempts answered with a status of 300 or more,
    [GetScanTemplatesContext] returns the executor's error behind the
    prefix "Call failed: ", whereas [GetScansContext] returns it as it
    is. *)
Theorem templates_wrap_the_error_and_scans_do_not ctx date w outs :
  (forall u, url_parse_error u = None) ->
  List.length outs = 10%nat ->
  Forall (fun rs => 300 <= StatusCode rs) outs ->
  answers Do (sends w) (map SendOk outs) ->
  fst (GetScanTemplatesContext Do ForAttempt AddAuthHeaders url_parse_error c_url
         ScanTemplate decode_templates ctx w)
  = Err (errors_New "Call failed: Retry limit exceeded")
  /\ fst (GetScansContext Do ForAttempt AddAuthHeaders url_parse_error c_url
            PersistedScan decode_scans add_query ctx date w)
     = Err (errors_New "Retry limit exceeded").
Proof.
  intros Hurl Hlen Hall Hans.
  unfold GetScanTemplatesContext, GetScansContext, http_NewRequest. rewrite !Hurl.
  split.
  all: match goal with |- context [performCallAndReadResponse _ _ _ ?q ?d ?w0] =>
         assert (H : fst (performCallAndReadResponse Do ForAttempt AddAuthHeaders q d w0)
                     = Err (errors_New "Retry limit exceeded"))
           by (apply (performCall_retry_limit Do ForAttempt AddAuthHeaders _ q d w0 outs);
               try assumption; first [exact I | destruct (0 <? date); exact I]);
         destruct (performCallAndReadResponse Do ForAttempt AddAuthHeaders q d w0) as [r w'];
         cbn [fst] in H; rewrite H; reflexivity
       end.
Qed.


(** X10.  When the call succeeds and the decoder leaves a scan detail
    behind the pointer, [GetScanByIDContext] returns that detail with
    its [ID] set to the id that was asked for, whatever id the body
    carried; the other fields are as decoded. *)
Theorem scan_detail_carries_the_requested_id ctx ID w fails final d :
  url_parse_error (c_url ++ "/scans/" ++ FormatInt ID)%string = None ->
  (List.length fails < 10)%nat ->
  Forall (fun rs => 300 <= StatusCode rs) fails ->
  StatusCode final < 300 ->
  answers Do (sends w) (map SendOk (fails ++ [final])) ->
  decode_scan_detail (RespBody final) = Ok (Some d) ->
  exists d',
    fst (GetScanByIDContext Do ForAttempt AddAuthHeaders url_parse_error c_url
           decode_scan_detail ctx ID w) = Returns (Ok d')
    /\ ScanDetail.ID d' = ID
    /\ ScanDetail.Info d' = ScanDetail.Info d
    /\ ScanDetail.Hosts d' = ScanDetail.Hosts d
    /\ ScanDetail.Vulnerabilities d' = ScanDetail.Vulnerabilities d.
Proof.
  intros Hurl Hlen Hall Hfin Hans Hdec.
  unfold GetScanByIDContext, http_NewRequest. rewrite Hurl.
  match goal with |- context [performCallAndReadResponse _ _ _ ?q ?dt w] =>
    destruct (performCall_success Do ForAttempt AddAuthHeaders _ q dt w fails final)
      as (evs & -> & _); try assumption; [exact I|]
  end.
  rewrite Hdec. exists (ScanDetail.set_ID d ID). repeat split.
Qed.

(** X19.  The decoder is given the address of the pointer to the scan
    detail, so a body it decodes to a nil pointer leaves nothing to
    write the [ID] into: when the call succeeds and the decoder leaves
    nil behind that pointer, [GetScanByIDContext] does not return, it
    panics on the assignment of the [ID]. *)
Theorem scan_detail_panics_on_a_nil_pointer ctx ID w fails final :
  url_parse_error (c_url ++ "/scans/" ++ FormatInt ID)%string = None ->
  (List.length fails < 10)%nat ->
  Forall (fun rs => 300 <= StatusCode rs) fails ->
  StatusCode final < 300 ->
  answers Do (sends w) (map SendOk (fails ++ [final])) ->
  decode_scan_detail (RespBody final) = Ok None ->
  fst (GetScanByIDContext Do ForAttempt AddAuthHeaders url_parse_error c_url
         decode_scan_detail ctx ID w)
  = Panics "invalid memory address or nil pointer dereference".
Proof.
  intros Hurl Hlen Hall Hfin Hans Hdec.
  unfold GetScanByIDContext, http_NewRequest. rewrite Hurl.
  match goal with |- context [performCallAndReadResponse _ _ _ ?q ?dt w] =>
    destruct (performCall_success Do ForAttempt AddAuthHeaders _ q dt w fails final)
      as (evs & -> & _); try assumption; [exact I|]
  end.
  rewrite Hdec. reflexivity.
Qed.

(** X11.  When the call succeeds, [GetPolicyByIDContext] returns the
    decoded policy with its [ID] set to the id that was asked for; the
    UUID and the settings are as decoded. *)
Theorem policy_carries_the_requested_id ctx ID w fails final p :
  url_parse_error (c_url ++ "/policies/" ++ FormatInt ID)%string = None ->
  (List.length fails < 10)%nat ->
  Forall (fun rs => 300 <= StatusCode rs) fails ->
  StatusCode final < 300 ->
  answers Do (sends w) (map SendOk (fails ++ [final])) ->
  decode_policy (RespBody final) = Ok p ->
  exists p',
    fst (GetPolicyByIDContext Do ForAttempt AddAuthHeaders url_parse_error c_url
           decode_policy ctx ID w) = Ok p'
    /\ Policy.ID p' = ID
    /\ Policy.UUID p' = Policy.UUID p
    /\ Policy.Settings p' = Policy.Settings p.
Proof.
  intros Hurl Hlen Hall Hfin Hans Hdec.
  unfold GetPolicyByIDContext, http_NewRequest. rewrite Hurl.
  match goal with |- context [performCallAndReadResponse _ _ _ ?q ?dt w] =>
    destruct (performCall_success Do ForAttempt AddAuthHeaders _ q dt w fails final)
      as (evs & -> & _); try assumption; [exact I|]
  end.
  rewrite Hdec. exists (Policy.set_ID p ID). repeat split.
Qed.

(** X12.  [GetPolicyByID], which the source writes out on its own
    rather than through [GetPolicyByIDContext], does exactly what
    [GetPolicyByIDContext] does under the background context: the same
    result and the same effects, whatever the transport answers. *)
Theorem GetPolicyByID_is_the_background_call ID w :
  GetPolicyByID Do ForAttempt AddAuthHeaders url_parse_error c_url decode_policy ID w
  = GetPolicyByIDContext Do ForAttempt AddAuthHeaders url_parse_error c_url decode_policy
      Background ID w.
Proof.
  unfold GetPolicyByID, GetPolicyByIDContext, http_NewRequest.
  destruct (url_parse_error (c_url ++ "/policies/" ++ FormatInt ID)); reflexivity.
Qed.

(** X13.  [CreateScanContext] sends the marshalled scan as the body of
    its first attempt, to [/scans] under the base URL, and when the
    call succeeds it returns the scan the final body decodes to.  When
    the scan cannot be marshalled, nothing is sent. *)
Theorem created_scan_is_posted_and_returned ctx scan w fails final :
  (forall q, Body (AddAuthHeaders q) = Body q) ->
  url_parse_error (c_url ++ "/scans")%string = None ->
  (List.length fails < 10)%nat ->
  Forall (fun rs => 300 <= StatusCode rs) fails ->
  StatusCode final < 300 ->
  answers Do (sends w) (map SendOk (fails ++ [final])) ->
  let out := CreateScanContext Do ForAttempt AddAuthHeaders url_parse_error c_url
               PersistedScan Scan zero_PersistedScan marshal_scan decode_created
               ctx scan w in
  (forall e, marshal_scan scan = Err e ->
             fst out = Err (errors_New ("Unable to marshall request body" ++ e)%string)
             /\ requests_sent (added w (snd out)) = [])
  /\ (forall jsonBody, marshal_scan scan = Ok jsonBody ->
        (forall created, decode_created (RespBody final) = Ok created ->
                         fst out = Ok created)
        /\ exists rest, bodies_presented (added w (snd out)) = jsonBody :: rest).
Proof.
  intros Hauth Hurl Hlen Hall Hfin Hans out. subst out.
  unfold CreateScanContext, http_NewRequest.
  destruct (marshal_scan scan) as [body|e0]; (split; [intros e He|intros jsonBody Hj]);
    try discriminate.
  - inversion Hj; subst body. rewrite Hurl.
    match goal with |- context [performCallAndReadResponse _ _ _ ?q ?dt w] =>
      destruct (performCall_shape Do ForAttempt AddAuthHeaders _ q dt w)
        as (post & Hadd & _); [reflexivity|];
      destruct (performCall_success Do ForAttempt AddAuthHeaders _ q dt w fails final)
        as (evs & Heq & _); try assumption; [reflexivity|];
      rewrite Heq in Hadd |- *
    end.
    cbn [snd] in Hadd. split.
    + intros created Hdec. rewrite Hdec. reflexivity.
    + destruct (decode_created (RespBody final)); cbn [snd]; rewrite Hadd;
        unfold bodies_presented, prelude; cbn [Body WithContext set_Header];
        cbn [app requests_sent flat_map map];
        (eexists; f_equal; unfold prepared, presented_body; rewrite Hauth; reflexivity).
  - inversion He; subst e0. cbn [fst snd]. rewrite added_refl. split; reflexivity.
Qed.

(** X14.  When the call succeeds, [GetPluginByIDContext] and
    [GetPluginOutputContext] return what the final body decodes to, as
    it is: unlike the scan-detail and policy endpoints they write
    nothing into it. *)
Theorem plugin_endpoints_return_the_decoded_value
    ctx ID scanID hostID pluginID w fails final :
  (forall u, url_parse_error u = None) ->
  (List.length fails < 10)%nat ->
  Forall (fun rs => 300 <= StatusCode rs) fails ->
  StatusCode final < 300 ->
  answers Do (sends w) (map SendOk (fails ++ [final])) ->
  (forall p, decode_plugin (RespBody final) = Ok p ->
             fst (GetPluginByIDContext Do ForAttempt AddAuthHeaders url_parse_error c_url
                    Plugin zero_Plugin decode_plugin ctx ID w) = Ok p)
  /\ (forall o, decode_plugin_output (RespBody final) = Ok o ->
                fst (GetPluginOutputContext Do ForAttempt AddAuthHeaders url_parse_error
                       c_url PluginOutputResponse zero_PluginOutputResponse
                       decode_plugin_output ctx scanID hostID pluginID w) = Ok o).
Proof.
  intros Hurl Hlen Hall Hfin Hans.
  unfold GetPluginByIDContext, GetPluginOutputContext, http_NewRequest. rewrite !Hurl.
  split; intros v Hdec.
  all: match goal with |- context [performCallAndReadResponse _ _ _ ?q ?dt ?w0] =>
         destruct (performCall_success Do ForAttempt AddAuthHeaders _ q dt w0 fails final)
           as (evs & -> & _); try assumption; [exact I|]
       end; rewrite Hdec; reflexivity.
Qed.

End ScanEndpointsExtras.

Section FindingsExtras.
Variable Do : nat -> Z -> Request -> SendResult.
Variable ForAttempt : nat -> Backoff -> Duration.
Variable AddAuthHeaders : Request -> Request.
Variables Asset Finding : Type.
Variable marshal_asset_search : string -> result bytes.
Variable marshal_findings_search : string -> result bytes.
Variable decode_assets : Reader -> result (list Asset).
Variable decode_findings : Reader -> result (FindingsPage Finding).
Variable url_parse_error : string -> option error.
Variable c_url : string.

(** The requests of a call made for a JSON request: one with a body,
    built for a POST to [u], given the two JSON headers and put under
    the context [ctx]. *)
Lemma json_call_requests (T : Type) (data : option (Reader -> result T)) u body ctx w :
  keeps_target AddAuthHeaders ->
  keeps_header AddAuthHeaders "Content-Type" ->
  keeps_header AddAuthHeaders "Accept" ->
  exists evs,
    trace (snd (performCallAndReadResponse Do ForAttempt AddAuthHeaders
                  (WithContext
                     (set_Header
                        (set_Header
                           {| Method := MethodPost; URL := u; ReqHeader := [];
                              Body := Some (NewBuffer body); Ctx := Background |}
                           "Content-Type" "application/json")
                        "Accept" "application/json") ctx) data w))
    = trace w ++ evs
    /\ Forall (fun q => targets MethodPost u ctx q /\ json_headers q) (requests_sent evs).
Proof.
  intros Hk Hc Ha.
  apply (performCall_requests_satisfy Do ForAttempt AddAuthHeaders
           (fun q => targets MethodPost u ctx q /\ json_headers q)).
  - intros q b H. exact H.
  - intros q ((H1 & H2 & H3) & (H4 & H5)). destruct (Hk q) as (K1 & K2 & K3).
    unfold targets, json_headers. rewrite K1, K2, K3, Hc, Ha. auto.
  - repeat split.
Qed.

Lemma next_pages_requests fuel :
  forall ctx next findings w r w',
    keeps_target AddAuthHeaders ->
    keeps_header AddAuthHeaders "Content-Type" ->
    keeps_header AddAuthHeaders "Accept" ->
    next_pages Do ForAttempt AddAuthHeaders Finding decode_findings url_parse_error c_url
      fuel ctx next findings w = Some (r, w') ->
    exists evs,
      trace w' = trace w ++ evs
      /\ Forall (fun q => targets MethodPost
                            (c_url ++ "/api/v3/findings/vulnerabilities/host/search")%string
                            ctx q /\ json_headers q)
           (requests_sent evs).
Proof.
  induction fuel as [|fuel IH]; intros ctx next findings w r w' Hk Hc Ha H.
  - cbn [next_pages] in H. destruct (String.eqb next EmptyString); [|discriminate].
    inversion H; subst. exists []. rewrite app_nil_r. split; [reflexivity|constructor].
  - cbn [next_pages] in H. destruct (String.eqb next EmptyString).
    { inversion H; subst. exists []. rewrite app_nil_r. split; [reflexivity|constructor]. }
    unfold http_NewRequest in H.
    destruct (url_parse_error _) as [e|].
    { inversion H; subst. exists []. rewrite app_nil_r. split; [reflexivity|constructor]. }
    match type of H with context [performCallAndReadResponse _ _ _ _ ?d w] =>
      destruct (json_call_requests _ d
                  (c_url ++ "/api/v3/findings/vulnerabilities/host/search")%string
                  (json_next next) ctx w Hk Hc Ha) as (ev1 & Ht1 & HF1)
    end.
    match type of H with context [performCallAndReadResponse _ _ _ ?q ?d w] =>
      destruct (performCallAndReadResponse Do ForAttempt AddAuthHeaders q d w)
        as [[page|e] w1]
    end; cbn [snd] in Ht1.
    + apply IH in H; auto. destruct H as (ev2 & Ht2 & HF2).
      exists (ev1 ++ ev2). rewrite Ht2, Ht1, <- app_assoc. split; [reflexivity|].
      rewrite requests_sent_app. apply Forall_app. split; assumption.
    + inversion H; subst. exists ev1. split; assumption.
Qed.

(** X16.  Whatever the transport answers, every request that
    [GetFindingsByAssetName] hands to it, on every page and on every
    retry, is a POST to the findings search path under the base URL,
    made under the caller's context, with [Content-Type] and [Accept]
    set to [application/json] (the auth provider leaving these
    alone). *)
Theorem findings_requests_are_json_posts fuel ctx name w r w' :
  keeps_target AddAuthHeaders ->
  keeps_header AddAuthHeaders "Content-Type" ->
  keeps_header AddAuthHeaders "Accept" ->
  GetFindingsByAssetName Do ForAttempt AddAuthHeaders Finding marshal_findings_search
    decode_findings url_parse_error c_url fuel ctx name w = Some (r, w') ->
  Forall (fun q => targets MethodPost
                     (c_url ++ "/api/v3/findings/vulnerabilities/host/search")%string ctx q
                   /\ json_headers q)
    (requests_sent (added w w')).
Proof.
  intros Hk Hc Ha H. unfold GetFindingsByAssetName, http_NewRequest in H.
  destruct (marshal_findings_search name) as [jsonBody|e].
  2:{ inversion H; subst. rewrite added_refl. constructor. }
  destruct (url_parse_error _) as [e|].
  { inversion H; subst. rewrite added_refl. constructor. }
  match type of H with context [performCallAndReadResponse _ _ _ _ ?d w] =>
    destruct (json_call_requests _ d
                (c_url ++ "/api/v3/findings/vulnerabilities/host/search")%string
                jsonBody ctx w Hk Hc Ha) as (ev1 & Ht1 & HF1)
  end.
  match type of H with context [performCallAndReadResponse _ _ _ ?q ?d w] =>
    destruct (performCallAndReadResponse Do ForAttempt AddAuthHeaders q d w)
      as [[page|e] w1]
  end; cbn [snd] in Ht1.
  - apply next_pages_requests in H; auto. destruct H as (ev2 & Ht2 & HF2).
    rewrite (added_app w (ev1 ++ ev2)) by (rewrite Ht2, Ht1, <- app_assoc; reflexivity).
    rewrite requests_sent_app. apply Forall_app. split; assumption.
  - inversion H; subst. rewrite (added_app w ev1) by assumption. exact HF1.
Qed.

(** X18.  Whatever the transport answers, every request that
    [GetAssetByName] hands to it is a POST to the asset search path
    under the base URL, made under the caller's context, with
    [Content-Type] and [Accept] set to [application/json]. *)
Theorem asset_requests_are_json_posts ctx name w :
  keeps_target AddAuthHeaders ->
  keeps_header AddAuthHeaders "Content-Type" ->
  keeps_header AddAuthHeaders "Accept" ->
  Forall (fun q => targets MethodPost (c_url ++ "/api/v3/assets/search")%string ctx q
                   /\ json_headers q)
    (requests_sent
       (added w (snd (GetAssetByName Do ForAttempt AddAuthHeaders Asset marshal_asset_search
                        decode_assets url_parse_error c_url ctx name w)))).
Proof.
  intros Hk Hc Ha. unfold GetAssetByName, http_NewRequest.
  destruct (marshal_asset_search name) as [jsonBody|e].
  2:{ cbn [snd]. rewrite added_refl. constructor. }
  destruct (url_parse_error _) as [e|].
  { cbn [snd]. rewrite added_refl. constructor. }
  match goal with |- context [performCallAndReadResponse _ _ _ _ ?d w] =>
    destruct (json_call_requests _ d (c_url ++ "/api/v3/assets/search")%string
                jsonBody ctx w Hk Hc Ha) as (ev1 & Ht1 & HF1)
  end.
  match goal with |- context [performCallAndReadResponse _ _ _ ?q ?d w] =>
    destruct (performCallAndReadResponse Do ForAttempt AddAuthHeaders q d w)
      as [[assets|e] w1]
  end; cbn [snd] in Ht1.
  - destruct (Nat.eqb _ _); [|destruct (Nat.ltb _ _); [|destruct (match assets with Some l => l | None => [] end)]];
      cbn [snd]; rewrite (added_app w ev1) by assumption; exact HF1.
  - cbn [snd]. rewrite (added_app w ev1) by assumption. exact HF1.
Qed.

Lemma next_pages_never_ends rs p ctx fuel :
  forall next findings w,
    url_parse_error (c_url ++ "/api/v3/findings/vulnerabilities/host/search")%string = None ->
    (forall n t q, Do n t q = SendOk rs) ->
    serves decode_findings rs p ->
    Next (Pagination_ p) <> EmptyString ->
    next <> EmptyString ->
    next_pages Do ForAttempt AddAuthHeaders Finding decode_findings url_parse_error c_url
      fuel ctx next findings w = None.
Proof.
  induction fuel as [|fuel IH]; intros next findings w Hurl HDo Hs Hp Hn;
    cbn [next_pages]; apply String.eqb_neq in Hn; rewrite Hn; [reflexivity|].
  unfold http_NewRequest. rewrite Hurl.
  match goal with |- context [performCallAndReadResponse _ _ _ ?q _ w] =>
    destruct (fetch_page Do ForAttempt AddAuthHeaders Finding decode_findings q w rs p
                (json_next next) eq_refl (HDo (sends w)) Hs) as (ev1 & -> & _) end.
  apply IH; assumption.
Qed.

(** X15.  The pagination loop has no bound of its own.  Against a
    server that answers every request with a successful page whose
    cursor is not empty, [GetFindingsByAssetName] never returns:
    however many iterations it is allowed, they run out. *)
Theorem findings_never_return_while_the_cursor_stays rs p fuel ctx name w jsonBody :
  marshal_findings_search name = Ok jsonBody ->
  url_parse_error (c_url ++ "/api/v3/findings/vulnerabilities/host/search")%string = None ->
  (forall n t q, Do n t q = SendOk rs) ->
  serves decode_findings rs p ->
  Next (Pagination_ p) <> EmptyString ->
  GetFindingsByAssetName Do ForAttempt AddAuthHeaders Finding marshal_findings_search
    decode_findings url_parse_error c_url fuel ctx name w = None.
Proof.
  intros Hm Hurl HDo Hs Hp.
  unfold GetFindingsByAssetName, http_NewRequest. rewrite Hm, Hurl.
  match goal with |- context [performCallAndReadResponse _ _ _ ?q _ w] =>
    destruct (fetch_page Do ForAttempt AddAuthHeaders Finding decode_findings q w rs p
                jsonBody eq_refl (HDo (sends w)) Hs) as (ev1 & -> & _) end.
  apply (next_pages_never_ends rs p); assumption.
Qed.

Lemma next_pages_fail e pages :
  forall resps next findings w fuel ctx,
    url_parse_error (c_url ++ "/api/v3/findings/vulnerabilities/host/search")%string = None ->
    next <> EmptyString ->
    Forall2 (serves decode_findings) resps pages ->
    Forall (fun p => Next (Pagination_ p) <> EmptyString) pages ->
    answers Do (sends w) (map SendOk resps ++ [SendErr e]) ->
    (List.length pages < fuel)%nat ->
    exists w',
      next_pages Do ForAttempt AddAuthHeaders Finding decode_findings url_parse_error c_url
        fuel ctx next findings w
      = Some (Err (errors_New ("Failed call: " ++ e)%string), w')
      /\ sends w' = (sends w + S (List.length pages))%nat.
Proof.
  induction pages as [|p rest IH];
    intros resps next findings w fuel ctx Hurl Hn Hsv Hall Hans Hfuel;
    (destruct fuel as [|fuel]; [cbn in Hfuel; lia|]);
    cbn [next_pages]; pose proof Hn as Hn'; apply String.eqb_neq in Hn'; rewrite Hn';
    unfold http_NewRequest; rewrite Hurl.
  - inversion Hsv; subst. cbn [map app] in Hans. apply answers_cons in Hans.
    destruct Hans as [H0 _].
    match goal with |- context [performCallAndReadResponse _ _ _ ?q ?d w] =>
      destruct (performCall_first_send_fails Do ForAttempt AddAuthHeaders _ q d w e)
        as (evs & ->); [reflexivity|exact H0|]
    end.
    eexists. split; [reflexivity|]. cbn. lia.
  - inversion Hsv as [|rs p' resps' rest' Hs Hsv']; subst.
    inversion Hall as [|? ? Hp Hall']; subst.
    cbn [map app] in Hans. apply answers_cons in Hans. destruct Hans as [H0 Hans].
    match goal with |- context [performCallAndReadResponse _ _ _ ?q _ w] =>
      destruct (fetch_page Do ForAttempt AddAuthHeaders Finding decode_findings q w rs p
                  (json_next next) eq_refl H0 Hs) as (ev1 & -> & _) end.
    destruct (IH resps' (Next (Pagination_ p)) (findings ++ Findings p)
                {| sends := S (sends w); draws := draws w; now := now w;
                   trace := trace w ++ ev1 |} fuel ctx Hurl Hp Hsv' Hall' Hans)
      as (w' & -> & Hsd).
    { cbn in Hfuel. lia. }
    exists w'. split; [reflexivity|]. cbn [sends List.length] in *. lia.
Qed.

(** X17.  A failure in the middle of the pages discards what has been
    gathered.  When the server returns pages that each carry a cursor
    and the transport then fails the next fetch,
    [GetFindingsByAssetName] returns that fetch's error as it is, with
    no findings, after one fetch per page and the failed one. *)
Theorem findings_are_dropped_when_a_page_fails
    ctx name w jsonBody resps (pages : list (FindingsPage Finding)) e fuel :
  marshal_findings_search name = Ok jsonBody ->
  url_parse_error (c_url ++ "/api/v3/findings/vulnerabilities/host/search")%string = None ->
  Forall2 (serves decode_findings) resps pages ->
  Forall (fun p => Next (Pagination_ p) <> EmptyString) pages ->
  answers Do (sends w) (map SendOk resps ++ [SendErr e]) ->
  (List.length pages <= fuel)%nat ->
  exists w',
    GetFindingsByAssetName Do ForAttempt AddAuthHeaders Finding marshal_findings_search
      decode_findings url_parse_error c_url fuel ctx name w
    = Some (Err (errors_New ("Failed call: " ++ e)%string), w')
    /\ sends w' = (sends w + S (List.length pages))%nat.
Proof.
  intros Hm Hurl Hsv Hall Hans Hfuel.
  unfold GetFindingsByAssetName, http_NewRequest. rewrite Hm, Hurl.
  destruct pages as [|p rest].
  - inversion Hsv; subst. cbn [map app] in Hans. apply answers_cons in Hans.
    destruct Hans as [H0 _].
    match goal with |- context [performCallAndReadResponse _ _ _ ?q ?d w] =>
      destruct (performCall_first_send_fails Do ForAttempt AddAuthHeaders _ q d w e)
        as (evs & ->); [reflexivity|exact H0|]
    end.
    eexists. split; [reflexivity|]. cbn. lia.
  - inversion Hsv as [|rs p' resps' rest' Hs Hsv']; subst.
    inversion Hall as [|? ? Hp Hall']; subst.
    cbn [map app] in Hans. apply answers_cons in Hans. destruct Hans as [H0 Hans].
    match goal with |- context [performCallAndReadResponse _ _ _ ?q _ w] =>
      destruct (fetch_page Do ForAttempt AddAuthHeaders Finding decode_findings q w rs p
                  jsonBody eq_refl H0 Hs) as (ev1 & -> & _) end.
    destruct (next_pages_fail e rest resps' (Next (Pagination_ p)) ([] ++ Findings p)
                {| sends := S (sends w); draws := draws w; now := now w;
                   trace := trace w ++ ev1 |} fuel ctx Hurl Hp Hsv' Hall' Hans)
      as (w' & -> & Hsd).
    { cbn in Hfuel. lia. }
    exists w'. split; [reflexivity|]. cbn [sends List.length] in *. lia.
Qed.

End FindingsExtras.

(** ** The theorems at concrete inputs *)

Import Fixtures.

Lemma scripted_answers_prefix a b : answers (scripted (a ++ b)) 0 a.
Proof. exact (proj1 (answers_app _ _ _ _ (scripted_answers (a ++ b)))). Qed.

Lemma ten_500_all_fail : Forall (fun rs => 300 <= StatusCode rs) ten_500.
Proof. apply Forall_forall. intros rs H. apply repeat_spec in H. subst rs. cbn. lia. Qed.

(** C1: a POST with body [ab] whose first attempt is answered 500: the
    body is read once, the first send carries [ab], the retry nothing. *)
Lemma C1_retry_drained_witness :
  bodies_read (added World0 (snd run_post_500_then_200)) = ["ab"%string]
  /\ exists rest,
       bodies_presented (added World0 (snd run_post_500_then_200))
       = "ab"%string :: EmptyString :: rest.
Proof.
  apply (C1_retry_is_presented_with_a_drained_body Do_500_then_200 at_minimum api_keys
           Z (post "ab" Background) (Some decode_int) World0 (NewBuffer "ab") status_500).
  - reflexivity.
  - reflexivity.
  - intros q. reflexivity.
  - intros t q. reflexivity.
  - cbn. lia.
Defined.

(** C2, as the spec states it, fails: here the second send follows the
    first with no call of the auth provider in between. *)
Lemma C2_counterexample_retry_without_auth :
  ~ (forall Do ForAttempt AddAuthHeaders (T : Type) req
            (data : option (Reader -> result T)) w,
        body_readable req ->
        auth_before_each_send false
          (added w (snd (performCallAndReadResponse Do ForAttempt AddAuthHeaders
                           req data w))) = true).
Proof.
  intros H.
  specialize (H Do_500_then_200 at_minimum api_keys Z (get_scans Background)
                (Some decode_int) World0 I).
  vm_compute in H. discriminate H.
Qed.

Lemma C2_auth_once_witness :
  body_readable (get_scans Background)
  /\ (exists pre post',
        added World0 (snd run_500_then_200) =
          pre ++ EvAddAuthHeaders
              :: EvDo (api_keys (set_Body (get_scans Background)
                                   (Some (NewBuffer (presented_body (get_scans Background))))))
              :: post'
        /\ api_keys (set_Body (get_scans Background)
                       (Some (NewBuffer (presented_body (get_scans Background)))))
           = prepared api_keys (get_scans Background)
        /\ requests_sent pre = [] /\ auth_calls pre = [] /\ auth_calls post' = []
        /\ Forall (fun q => q = drained (prepared api_keys (get_scans Background))
                            /\ ReqHeader q = ReqHeader (prepared api_keys (get_scans Background))
                            /\ Method q = Method (prepared api_keys (get_scans Background))
                            /\ URL q = URL (prepared api_keys (get_scans Background))
                            /\ Ctx q = Ctx (prepared api_keys (get_scans Background)))
             (requests_sent post'))
  /\ map (fun q => Header_Get (ReqHeader q) "X-ApiKeys")
         (requests_sent (added World0 (snd run_500_then_200)))
     = ["accessKey=a; secretKey=s"; "accessKey=a; secretKey=s"]%string.
Proof.
  split; [reflexivity|]. split.
  - apply (C2_auth_headers_added_once_before_first_send Do_500_then_200 at_minimum
             api_keys Z (get_scans Background) (Some decode_int) World0).
    reflexivity.
  - vm_compute. reflexivity.
Defined.

Lemma C3_ten_failures_witness :
  fst run_ten_500 = Err (errors_New "Retry limit exceeded")
  /\ List.length (requests_sent (added World0 (snd run_ten_500))) = 10%nat.
Proof.
  apply (C3_ten_failures_exhaust_the_retry_budget (scripted (map SendOk ten_500))
           at_minimum api_keys Z (get_scans Background) (Some decode_int) World0 ten_500).
  - reflexivity.
  - reflexivity.
  - exact ten_500_all_fail.
  - apply scripted_answers.
Defined.

(** C4, as the spec states it, fails: a 200 whose body is not what the
    target expects ends the call with an error. *)
Lemma C4_counterexample_undecodable_body :
  ~ (forall Do ForAttempt AddAuthHeaders (T : Type) req
            (data : option (Reader -> result T)) w fails final,
        body_readable req ->
        (List.length (fails ++ [final]) <= 10)%nat ->
        Forall (fun rs => 300 <= StatusCode rs) fails ->
        StatusCode final < 300 ->
        answers Do (sends w) (map SendOk (fails ++ [final])) ->
        exists v,
          fst (performCallAndReadResponse Do ForAttempt AddAuthHeaders req data w) = Ok v).
Proof.
  intros H.
  destruct (H (scripted [SendOk html_page]) at_minimum api_keys Z (get_scans Background)
              (Some decode_int) World0 [] html_page) as [v Hv].
  - reflexivity.
  - cbn. lia.
  - constructor.
  - cbn. lia.
  - apply scripted_answers.
  - vm_compute in Hv. discriminate Hv.
Qed.

Lemma C4_success_after_retries_witness :
  List.length (requests_sent (added World0 (snd run_500_then_200))) = 2%nat
  /\ classify 200 = Success
  /\ retries_logged (added World0 (snd run_500_then_200)) = [RetryableFailure]
  /\ fst run_500_then_200 = Ok (Some 42).
Proof.
  apply (C4_success_after_retries Do_500_then_200 at_minimum api_keys Z
           (get_scans Background) (Some decode_int) World0 [status_500] (reply 200 [] "42")).
  - reflexivity.
  - cbn. lia.
  - repeat constructor. cbn. lia.
  - cbn. lia.
  - apply scripted_answers.
Defined.

(** C5, as the spec states it, fails: 9223372037 seconds do not fit in
    a [time.Duration], and the product wraps around to a negative
    wait. *)
Lemma C5_counterexample_wait_overflows :
  ~ (forall Do ForAttempt AddAuthHeaders (T : Type) req
            (data : option (Reader -> result T)) w fails i rs n,
        body_readable req ->
        (List.length fails <= 10)%nat ->
        Forall (fun r => 300 <= StatusCode r) fails ->
        answers Do (sends w) (map SendOk fails) ->
        nth_error fails i = Some rs ->
        StatusCode rs = 429 ->
        Atoi (Header_Get (RespHeader rs) "retry-after") = Some n ->
        nth_error
          (sleeps_of (added w (snd (performCallAndReadResponse Do ForAttempt
                                      AddAuthHeaders req data w)))) i
        = Some (n * Second)).
Proof.
  intros H.
  specialize (H (scripted [SendOk (limited "9223372037"); SendOk (reply 200 [] "42")])
                at_minimum api_keys Z (get_scans Background) (Some decode_int) World0
                [limited "9223372037"] 0%nat (limited "9223372037") 9223372037).
  assert (E : nth_error (sleeps_of (added World0 (snd (run_limited "9223372037")))) 0
              = Some (9223372037 * Second)).
  { apply H.
    - reflexivity.
    - cbn. lia.
    - repeat constructor. cbn. lia.
    - exact (scripted_answers_prefix [SendOk (limited "9223372037")]
               [SendOk (reply 200 [] "42")]).
    - reflexivity.
    - reflexivity.
    - reflexivity. }
  vm_compute in E. discriminate E.
Qed.

Lemma C5_five_seconds_witness :
  nth_error (sleeps_of (added World0 (snd (run_limited "5")))) 0 = Some (5 * Second).
Proof.
  refine (proj1 (C5_wait_after_rate_limit
                   (scripted [SendOk (limited "5"); SendOk (reply 200 [] "42")])
                   at_minimum api_keys Z (get_scans Background) (Some decode_int) World0
                   [limited "5"] 0%nat (limited "5") _ _ _ _ _ _) 5 _ _).
  - reflexivity.
  - cbn. lia.
  - repeat constructor. cbn. lia.
  - exact (scripted_answers_prefix [SendOk (limited "5")] [SendOk (reply 200 [] "42")]).
  - reflexivity.
  - reflexivity.
  - reflexivity.
  - lia.
Defined.

Lemma C6_refused_connection_witness :
  fst run_refused = Err (errors_New "Failed call: connection refused")
  /\ exists evs rq,
       added World0 (snd run_refused) = evs ++ [EvDo rq]
       /\ List.length (requests_sent evs) = 1%nat
       /\ List.length (sleeps_of evs) = 1%nat.
Proof.
  apply (C6_transport_failure_is_not_retried
           (scripted [SendOk status_500; SendErr "connection refused"]) at_minimum api_keys
           Z (get_scans Background) (Some decode_int) World0 [status_500]
           "connection refused").
  - reflexivity.
  - cbn. lia.
  - repeat constructor. cbn. lia.
  - apply scripted_answers.
Defined.

Lemma C7_closed_twice_witness :
  times_closed 9 (added World0 (snd run_ten_500)) = 2%nat.
Proof.
  apply (C7_last_body_closed_twice_when_budget_exhausted (scripted (map SendOk ten_500))
           at_minimum api_keys Z (get_scans Background) (Some decode_int) World0 ten_500).
  - reflexivity.
  - reflexivity.
  - exact ten_500_all_fail.
  - apply scripted_answers.
Defined.

(** C9, as the spec states it, fails: the context fires 50ms into a
    sleep of 100ms, and the call is still asleep when the 100ms are
    over. *)
Lemma C9_counterexample_sleep_runs_to_its_end :
  ~ (forall Do ForAttempt AddAuthHeaders (T : Type) req
            (data : option (Reader -> result T)) w tc,
        body_readable req ->
        (forall q, Ctx (AddAuthHeaders q) = Ctx q) ->
        done_at (Ctx req) = Some tc ->
        aborts_on_cancel tc w
          (performCallAndReadResponse (with_context Do) ForAttempt AddAuthHeaders
             req data w)).
Proof.
  intros H.
  specialize (H (scripted (map SendOk ten_500)) at_minimum api_keys Z
                (get_scans (canceled_at (50 * Millisecond))) (Some decode_int) World0
                (50 * Millisecond) I (fun q => eq_refl) eq_refl).
  fold run_canceled in H.
  destruct (H (firstn 10 (added World0 (snd run_canceled))) (100 * Millisecond)
              (skipn 11 (added World0 (snd run_canceled)))) as [Hprompt _].
  - vm_compute. reflexivity.
  - vm_compute. split; [intros E; discriminate E | reflexivity].
  - vm_compute in Hprompt. discriminate Hprompt.
Qed.

Lemma C9_canceled_during_sleep_witness :
  fst run_canceled = Err (errors_New "Failed call: context canceled")
  /\ now (snd run_canceled) = 100 * Millisecond
  /\ sleeps_of (added World0 (snd run_canceled)) = [100 * Millisecond]
  /\ List.length (requests_sent (added World0 (snd run_canceled))) = 2%nat.
Proof.
  apply (C9_cancellation_is_seen_only_by_the_next_send (scripted (map SendOk ten_500))
           at_minimum api_keys Z (get_scans (canceled_at (50 * Millisecond)))
           (Some decode_int) World0 [status_500] (50 * Millisecond)).
  - reflexivity.
  - intros q. reflexivity.
  - reflexivity.
  - exact (scripted_answers_prefix [SendOk status_500] (map SendOk (repeat status_500 9))).
  - repeat constructor. cbn. lia.
  - discriminate.
  - cbn. lia.
  - vm_compute. split; [reflexivity | intros E; discriminate E].
Defined.

Lemma C8_two_pages_witness :
  exists w',
    run_two_pages = Some (Ok ["A"; "B"; "C"]%string, w')
    /\ sends w' = 2%nat
    /\ bodies_read (added World0 w')
       = ["query:web-1";
          "{" ++ String "034" "next" ++ String "034" ":" ++ String "034" "c1"
          ++ String "034" "}"]%string
    /\ bodies_presented (added World0 w')
       = ["query:web-1";
          "{" ++ String "034" "next" ++ String "034" ":" ++ String "034" "c1"
          ++ String "034" "}"]%string.
Proof.
  destruct (C8_pages_are_concatenated_until_the_empty_cursor Do_two_pages at_minimum
              api_keys string marshal_query decode_pages any_url base_url Background
              "web-1" World0 "query:web-1" [reply 200 [] "page1"; reply 200 [] "page2"]
              [page1] page2 1)
    as (w' & Hrun & Hsends & Hread & Hsent).
  - reflexivity.
  - reflexivity.
  - repeat constructor; cbn; lia.
  - repeat constructor. discriminate.
  - reflexivity.
  - apply scripted_answers.
  - cbn. lia.
  - exists w'. split; [exact Hrun|]. split; [exact Hsends|]. split; [exact Hread|].
    apply Hsent. intros q. reflexivity.
Defined.

Lemma closed_once_witness :
  times_closed 0 (added World0 (snd run_500_then_200)) = 1%nat
  /\ times_closed 1 (added World0 (snd run_500_then_200)) = 1%nat.
Proof.
  split;
    apply (closed_once_on_success Do_500_then_200 at_minimum api_keys Z
             (get_scans Background) (Some decode_int) World0 [status_500]
             (reply 200 [] "42"));
    first [exact I | apply scripted_answers | repeat constructor; cbn; lia | cbn; lia].
Defined.

Lemma C10_asset_counts_witness :
  fst run_one_asset = Ok "web-1"%string
  /\ fst run_no_asset = Err "No assets matching name: web-1"%string
  /\ fst run_two_assets = Err "More than one asset matching name: web-1 (2)"%string
  /\ fst run_dozen_assets = Err "More than one asset matching name: web-1 (12)"%string.
Proof.
  split; [|split; [|split]].
  - refine (proj2 (proj2 (C10_exactly_one_asset_or_an_error
                            (scripted [SendOk (reply 200 [] "one")]) at_minimum api_keys
                            string marshal_query decode_names any_url base_url Background
                            "web-1" World0 "query:web-1" [] (reply 200 [] "one")
                            ["web-1"%string] _ _ _ _ _ _ _)) "web-1"%string eq_refl);
      first [reflexivity | apply scripted_answers | cbn; lia | constructor].
  - refine (proj1 (C10_exactly_one_asset_or_an_error
                     (scripted [SendOk (reply 200 [] "none")]) at_minimum api_keys
                     string marshal_query decode_names any_url base_url Background
                     "web-1" World0 "query:web-1" [] (reply 200 [] "none")
                     [] _ _ _ _ _ _ _) eq_refl);
      first [reflexivity | apply scripted_answers | cbn; lia | constructor].
  - refine (proj1 (proj2 (C10_exactly_one_asset_or_an_error
                            (scripted [SendOk (reply 200 [] "two")]) at_minimum api_keys
                            string marshal_query decode_names any_url base_url Background
                            "web-1" World0 "query:web-1" [] (reply 200 [] "two")
                            ["web-1"; "web-1"]%string _ _ _ _ _ _ _)) _);
      first [reflexivity | apply scripted_answers | cbn; lia | constructor].
  - refine (proj1 (proj2 (C10_exactly_one_asset_or_an_error
                            (scripted [SendOk (reply 200 [] "dozen")]) at_minimum api_keys
                            string marshal_query decode_dozen any_url base_url Background
                            "web-1" World0 "query:web-1" [] (reply 200 [] "dozen")
                            (repeat "web-1"%string 12) _ _ _ _ _ _ _)) _);
      first [reflexivity | apply scripted_answers | cbn; lia | constructor].
Defined.

(** ** The further properties at concrete inputs *)

Lemma Header_lookup_remove h k k' :
  k <> k' -> Header_lookup (Header_remove h k) k' = Header_lookup h k'.
Proof.
  intros Hne. induction h as [|[k0 vs] h IH]; cbn; [reflexivity|].
  destruct (String.eqb_spec k0 k) as [->|Hk0].
  - rewrite IH. apply String.eqb_neq in Hne. rewrite Hne. reflexivity.
  - cbn. rewrite IH. reflexivity.
Qed.

Lemma Header_Get_Set_other h key value key' :
  CanonicalMIMEHeaderKey key <> CanonicalMIMEHeaderKey key' ->
  Header_Get (Header_Set h key value) key' = Header_Get h key'.
Proof.
  intros Hne. unfold Header_Get, Header_Set. cbn [Header_lookup].
  pose proof Hne as Hne'. apply String.eqb_neq in Hne'. rewrite Hne'.
  rewrite Header_lookup_remove by exact Hne. reflexivity.
Qed.

Lemma api_keys_keeps_target : keeps_target api_keys.
Proof. intros q. repeat split. Qed.

Lemma api_keys_keeps_content_type : keeps_header api_keys "Content-Type".
Proof. intros q. apply Header_Get_Set_other. vm_compute. discriminate. Qed.

Lemma api_keys_keeps_accept : keeps_header api_keys "Accept".
Proof. intros q. apply Header_Get_Set_other. vm_compute. discriminate. Qed.

Lemma attempts_bounded_witness :
  (1 <= List.length (requests_sent (added World0 (snd run_500_then_200))) <= 10)%nat
  /\ (List.length (sleeps_of (added World0 (snd run_500_then_200)))
      <= List.length (requests_sent (added World0 (snd run_500_then_200)))
      <= List.length (sleeps_of (added World0 (snd run_500_then_200))) + 1)%nat
  /\ sends (snd run_500_then_200)
     = (sends World0 + List.length (requests_sent (added World0 (snd run_500_then_200))))%nat.
Proof.
  exact (attempts_are_bounded_for_every_transport Do_500_then_200 at_minimum api_keys
           Z (get_scans Background) (Some decode_int) World0 I).
Defined.

Lemma bodies_closed_witness :
  (exists e, fst run_refused = Err (errors_New ("Failed call: " ++ e)%string)
             /\ closes_of (added World0 (snd run_refused))
                = seq (sends World0)
                    (List.length (requests_sent (added World0 (snd run_refused))) - 1))
  \/ (fst run_refused = Err (errors_New "Retry limit exceeded")
      /\ List.length (requests_sent (added World0 (snd run_refused))) = 10%nat
      /\ closes_of (added World0 (snd run_refused))
         = seq (sends World0) 10 ++ [(sends World0 + 9)%nat])
  \/ (((exists v, fst run_refused = Ok v)
       \/ (exists e, fst run_refused
                     = Err (errors_New ("Failed to read the response: " ++ e)%string)))
      /\ closes_of (added World0 (snd run_refused))
         = seq (sends World0)
             (List.length (requests_sent (added World0 (snd run_refused))))).
Proof.
  exact (bodies_closed_for_every_transport
           (scripted [SendOk status_500; SendErr "connection refused"]) at_minimum api_keys
           Z (get_scans Background) (Some decode_int) World0 I).
Defined.

Lemma retry_after_ignored_witness :
  nth_error (sleeps_of (added World0 (snd run_unavailable))) 0 = Some (100 * Millisecond).
Proof.
  apply (retry_after_is_ignored_unless_429
           (scripted [SendOk unavailable; SendOk (reply 200 [] "42")]) at_minimum api_keys
           Z (get_scans Background) (Some decode_int) World0 [unavailable] 0%nat unavailable).
  - exact I.
  - cbn. lia.
  - repeat constructor. cbn. lia.
  - exact (scripted_answers_prefix [SendOk unavailable] [SendOk (reply 200 [] "42")]).
  - reflexivity.
  - cbn. lia.
Defined.

Lemma unreadable_body_witness :
  fst run_broken_post = Err (errors_New "Failed to read request body: unexpected EOF")
  /\ requests_sent (added World0 (snd run_broken_post)) = []
  /\ auth_calls (added World0 (snd run_broken_post)) = []
  /\ sends (snd run_broken_post) = sends World0.
Proof.
  exact (unreadable_body_sends_nothing Do_500_then_200 at_minimum api_keys Z broken_post
           (Some decode_int) World0 broken_body "unexpected EOF" eq_refl eq_refl).
Defined.

Lemma scan_control_targets_witness :
  Forall (targets "POST" "https://cloud.tenable.com/scans/42/launch" Background)
    (requests_sent (added World0 (snd run_launch)))
  /\ Forall (targets "POST" "https://cloud.tenable.com/scans/42/stop" Background)
       (requests_sent (added World0 (snd run_stop)))
  /\ Forall (targets "DELETE" "https://cloud.tenable.com/scans/42" Background)
       (requests_sent (added World0 (snd run_delete))).
Proof.
  exact (scan_control_requests_hit_their_target Do_500_then_200 at_minimum api_keys any_url
           base_url Background 42 World0 api_keys_keeps_target).
Defined.


Lemma templates_wrap_witness :
  fst run_templates_ten_500 = Err (errors_New "Call failed: Retry limit exceeded")
  /\ fst (run_scans (scripted (map SendOk ten_500)) 1700000000)
     = Err (errors_New "Retry limit exceeded").
Proof.
  apply (templates_wrap_the_error_and_scans_do_not (scripted (map SendOk ten_500))
           at_minimum api_keys any_url base_url string string decode_listing decode_listing
           question_mark_query Background 1700000000 World0 ten_500).
  - intros u. reflexivity.
  - reflexivity.
  - exact ten_500_all_fail.
  - apply scripted_answers.
Defined.


Lemma scan_detail_witness :
  exists d',
    fst run_scan_detail = Returns (Ok d')
    /\ ScanDetail.ID d' = 42
    /\ ScanDetail.Info d' = ScanDetail.Info detail_7
    /\ ScanDetail.Hosts d' = ScanDetail.Hosts detail_7
    /\ ScanDetail.Vulnerabilities d' = ScanDetail.Vulnerabilities detail_7.
Proof.
  apply (scan_detail_carries_the_requested_id Do_detail at_minimum api_keys any_url base_url
           decode_detail Background 42 World0 [status_500] (reply 200 [] "{}") detail_7).
  - reflexivity.
  - cbn. lia.
  - repeat constructor. cbn. lia.
  - cbn. lia.
  - apply scripted_answers.
  - reflexivity.
Defined.

Lemma policy_witness :
  exists p',
    fst run_policy = Ok p'
    /\ Policy.ID p' = 42
    /\ Policy.UUID p' = Policy.UUID policy_7
    /\ Policy.Settings p' = Policy.Settings policy_7.
Proof.
  apply (policy_carries_the_requested_id Do_detail at_minimum api_keys any_url base_url
           decode_policy_7 Background 42 World0 [status_500] (reply 200 [] "{}") policy_7).
  - reflexivity.
  - cbn. lia.
  - repeat constructor. cbn. lia.
  - cbn. lia.
  - apply scripted_answers.
  - reflexivity.
Defined.

Lemma create_scan_witness :
  (forall created, decode_string (RespBody (reply 200 [] "created")) = Ok created ->
                   fst run_create_scan = Ok created)
  /\ exists rest,
       bodies_presented (added World0 (snd run_create_scan)) = "scan:weekly"%string :: rest.
Proof.
  apply (proj2 (created_scan_is_posted_and_returned Do_created at_minimum api_keys any_url
                  base_url string string EmptyString marshal_string decode_string Background
                  "weekly" World0 [] (reply 200 [] "created")
                  (fun q => eq_refl) eq_refl ltac:(cbn; lia) (Forall_nil _)
                  ltac:(cbn; lia) (scripted_answers _))).
  reflexivity.
Defined.

Lemma plugin_witness :
  fst run_plugin = Ok "created"%string /\ fst run_plugin_output = Ok "created"%string.
Proof.
  destruct (plugin_endpoints_return_the_decoded_value Do_created at_minimum api_keys any_url
              base_url string string EmptyString EmptyString decode_string decode_string
              Background 19506 42 2 19506 World0 [] (reply 200 [] "created")
              (fun u => eq_refl) ltac:(cbn; lia) (Forall_nil _) ltac:(cbn; lia)
              (scripted_answers _)) as [H1 H2].
  split; [apply H1 | apply H2]; reflexivity.
Defined.

Lemma endless_pages_witness :
  GetFindingsByAssetName Do_page1_for_ever at_minimum api_keys string marshal_query
    decode_pages any_url base_url 1000 Background "web-1" World0 = None.
Proof.
  apply (findings_never_return_while_the_cursor_stays Do_page1_for_ever at_minimum api_keys
           string marshal_query decode_pages any_url base_url (reply 200 [] "page1") page1
           1000%nat Background "web-1" World0 "query:web-1").
  - reflexivity.
  - reflexivity.
  - intros n t q. reflexivity.
  - split; [cbn; lia | reflexivity].
  - discriminate.
Defined.

Lemma findings_requests_witness :
  exists r w',
    run_two_pages = Some (r, w')
    /\ Forall (fun q => targets "POST"
                          "https://cloud.tenable.com/api/v3/findings/vulnerabilities/host/search"
                          Background q /\ json_headers q)
         (requests_sent (added World0 w')).
Proof.
  destruct run_two_pages as [[r w']|] eqn:E.
  - exists r, w'. split; [reflexivity|].
    exact (findings_requests_are_json_posts Do_two_pages at_minimum api_keys string
             marshal_query decode_pages any_url base_url 1 Background "web-1" World0
             r w' api_keys_keeps_target api_keys_keeps_content_type api_keys_keeps_accept E).
  - vm_compute in E. discriminate E.
Defined.

Lemma page_failure_witness :
  exists w',
    run_page1_then_reset
    = Some (Err (errors_New "Failed call: connection reset by peer"), w')
    /\ sends w' = 2%nat.
Proof.
  apply (findings_are_dropped_when_a_page_fails Do_page1_then_reset at_minimum api_keys
           string marshal_query decode_pages any_url base_url Background "web-1" World0
           "query:web-1" [reply 200 [] "page1"] [page1] "connection reset by peer" 1).
  - reflexivity.
  - reflexivity.
  - repeat constructor; cbn; lia.
  - repeat constructor. discriminate.
  - apply scripted_answers.
  - cbn. lia.
Defined.

Lemma asset_requests_witness :
  Forall (fun q => targets "POST" "https://cloud.tenable.com/api/v3/assets/search"
                     Background q /\ json_headers q)
    (requests_sent (added World0 (snd run_one_asset))).
Proof.
  exact (asset_requests_are_json_posts (scripted [SendOk (reply 200 [] "one")]) at_minimum
           api_keys string marshal_query decode_names any_url base_url Background "web-1"
           World0 api_keys_keeps_target api_keys_keeps_content_type api_keys_keeps_accept).
Defined.

Lemma scan_detail_nil_witness :
  fst run_scan_null = Panics "invalid memory address or nil pointer dereference".
Proof.
  apply (scan_detail_panics_on_a_nil_pointer (scripted [SendOk (reply 200 [] "null")])
           at_minimum api_keys any_url base_url decode_detail Background 42 World0 []
           (reply 200 [] "null")).
  - reflexivity.
  - cbn. lia.
  - constructor.
  - cbn. lia.
  - apply scripted_answers.
  - reflexivity.
Defined.
